(** * AutoMapperValidator: the configuration validator of AutoMapper

    A shallow embedding of [src/ts/AutoMapperValidator.ts] and the
    properties of its dry-run validation.

    Conventions of the embedding.
    - A JavaScript object is seen through the two operations the validator
      uses on it: [for (k in o)] and the method call [o.hasOwnProperty(k)],
      which first looks the method up on the object.
    - A [throw] is an abrupt completion; every function that can throw
      returns a [completion].
    - [null] and [undefined] are [None]; a present object is always truthy.
    - Template literals are string concatenations. *)

From Stdlib Require Import Ascii String List ZArith Lia Bool PeanoNat.
Import ListNotations.
Local Open Scope string_scope.
Local Open Scope list_scope.

Set Implicit Arguments.

(** ** JavaScript values the validator looks at *)

(** What a statement can throw here: [new Error(message)], or the
    TypeError of a property read on [null] or [undefined] and of a call
    of something that is no function. *)
Inductive JSError :=
| Error (message : string)
| TypeError.

Inductive completion (A : Type) :=
| Normal (a : A)
| Throw (e : JSError).

Arguments Normal {A} a.
Arguments Throw {A} e.

Definition bind {A B : Type} (c : completion A) (k : A -> completion B)
  : completion B :=
  match c with
  | Normal a => k a
  | Throw e => Throw e
  end.

Notation "x <- c ;; k" := (bind c (fun x => k))
  (at level 61, c at next level, right associativity).
Notation "c ;;; k" := (bind c (fun _ => k))
  (at level 61, right associativity).

(** What the lookup of the name [hasOwnProperty] on an object yields:
    the method of [Object.prototype], a value that is no function, or a
    function put in its place (by a field, a class method or a prototype
    assignment), seen through the truthiness of what it returns. *)
Inductive JSMethod :=
| ObjectPrototypeMethod
| NotCallable
| Replacement (f : string -> completion bool).

(** An instance as the validator sees it: its own enumerable keys, in the
    order [for..in] visits them, the enumerable keys it inherits from
    its prototype chain, and what [hasOwnProperty] resolves to on it.
    The third field is the outcome of the property lookup, whatever put
    it there: an enumerable member of that name (then listed among the
    keys) or one hidden from enumeration, such as a class method.  The
    instances are the ones [new T()] builds, whose own properties are
    the fields the constructor assigns; other own properties hidden
    from enumeration are outside the model. *)
Record JSObject := mkObject {
  ownKeys : list string;
  protoKeys : list string;
  hasOwnPropertySlot : JSMethod
}.

(** [Object.prototype.hasOwnProperty] applied to [o]. *)
Definition ownsKey (o : JSObject) (k : string) : bool :=
  existsb (String.eqb k) (ownKeys o).

(** The call [o.hasOwnProperty(k)]: calling a value that is no function
    throws a TypeError; a replacement answers as it pleases. *)
Definition hasOwnProperty (o : JSObject) (k : string) : completion bool :=
  match hasOwnPropertySlot o with
  | ObjectPrototypeMethod => Normal (ownsKey o k)
  | NotCallable => Throw TypeError
  | Replacement f => f k
  end.

(** An instance on which [hasOwnProperty] is the method every object
    inherits from [Object.prototype]: nothing takes its place, and no
    member, own or inherited, goes by that name. *)
Definition ordinaryInstance (o : JSObject) : bool :=
  match hasOwnPropertySlot o with
  | ObjectPrototypeMethod =>
      negb (existsb (String.eqb "hasOwnProperty") (ownKeys o ++ protoKeys o))
  | _ => false
  end.

(** [for (k in o)]: own keys first, then the inherited keys that no own
    key shadows. *)
Definition forIn (o : JSObject) : list string :=
  ownKeys o ++ filter (fun k => negb (ownsKey o k)) (protoKeys o).

(** [Array.prototype.indexOf]: the first index of [x], or -1. *)
Fixpoint indexOf (l : list string) (x : string) : Z :=
  match l with
  | [] => (-1)%Z
  | y :: rest =>
      if String.eqb y x then 0%Z
      else let i := indexOf rest x in
           if (i <? 0)%Z then (-1)%Z else (i + 1)%Z
  end.

(** [Array.prototype.push] *)
Definition push (l : list string) (x : string) : list string := l ++ [x].

(** ** Interfaces *)

(** [IDestinationProperty]; an absent [ignore] or [sourceMapping] is
    falsy, hence [false]. *)
Record IDestinationProperty := mkDestinationProperty {
  dp_name : string;
  dp_destinationPropertyName : string;
  ignore : bool;
  sourceMapping : bool
}.

(** [ISourceProperty]: [destination] and [children] are both optional.
    The induction principle that reaches into [children] is
    [ISourceProperty_tree_ind] below. *)
#[local] Unset Elimination Schemes.
Inductive ISourceProperty := mkSourceProperty {
  sp_name : string;
  sp_destinationPropertyName : string;
  destination : option IDestinationProperty;
  children : option (list ISourceProperty)
}.
#[local] Set Elimination Schemes.

(** A constructor function: its own name, and the instance that
    [new T()] builds. *)
Record TypeClass := mkTypeClass {
  typeName : string;
  construct : JSObject
}.

(** [IMapping] *)
Record IMapping := mkMapping {
  sourceKey : string;
  destinationKey : string;
  sourceTypeClass : option TypeClass;
  destinationTypeClass : option TypeClass;
  properties : list ISourceProperty
}.

(** The registry object handed to [assertConfigurationIsValid]: its own
    entries in enumeration order, and the entries it inherits. *)
Record Registry := mkRegistry {
  ownEntries : list (string * IMapping);
  protoEntries : list (string * IMapping)
}.

Fixpoint assoc (l : list (string * IMapping)) (k : string) : option IMapping :=
  match l with
  | [] => None
  | (k', m) :: rest => if String.eqb k' k then Some m else assoc rest k
  end.

(** [Object.prototype.hasOwnProperty] applied to the registry. *)
Definition registryOwnsKey (r : Registry) (k : string) : bool :=
  existsb (String.eqb k) (map fst (ownEntries r)).

Definition registryForIn (r : Registry) : list string :=
  map fst (ownEntries r)
  ++ filter (fun k => negb (registryOwnsKey r k)) (map fst (protoEntries r)).

(** [mappings[key]]: the own entry, else the inherited one, else
    [undefined]. *)
Definition registryGet (r : Registry) (k : string) : option IMapping :=
  match assoc (ownEntries r) k with
  | Some m => Some m
  | None => assoc (protoEntries r) k
  end.

(** The call [mappings.hasOwnProperty(key)]: an entry registered under
    the name [hasOwnProperty], own or inherited, is what the lookup finds,
    and a mapping is no function. *)
Definition registryHasOwnProperty (r : Registry) (k : string) : completion bool :=
  match registryGet r "hasOwnProperty" with
  | Some _ => Throw TypeError
  | None => Normal (registryOwnsKey r k)
  end.

(** ** The validator *)

(** [getDestinationProperty] *)
Fixpoint getDestinationProperty (destinationPropertyName : string)
    (existingSource : ISourceProperty) : option IDestinationProperty :=
  match destination existingSource with
  | Some d => Some d
  | None =>
      match children existingSource with
      | Some cs =>
          (fix loop (cs : list ISourceProperty) : option IDestinationProperty :=
             match cs with
             | [] => None
             | child :: rest =>
                 match getDestinationProperty destinationPropertyName child with
                 | Some d => Some d
                 | None => loop rest
                 end
             end) cs
      | None => None
      end
  end.

(** [validateSourcePropertyMapping] *)
Definition validateSourcePropertyMapping (propertyMapping : ISourceProperty)
    (destinationProperty : IDestinationProperty) (member : string)
    (srcObj dstObj : JSObject) : completion (option string) :=
  onSource <- hasOwnProperty srcObj member ;;
  if negb onSource then
    Normal (Some ("Source member '" ++ member
                  ++ "' is configured, but does not exist on source type")%string)
  else if ignore destinationProperty then
    onDestination <- hasOwnProperty dstObj member ;;
    if onDestination then
      Normal (Some ("Source member '" ++ member
                    ++ "' is ignored, but does exist on destination type")%string)
    else Normal None
  else
    onDestination <- hasOwnProperty dstObj member ;;
    if negb onDestination then
      Normal (Some ("Source member '" ++ member
                    ++ "' is configured to be mapped, but does not exist on destination type")%string)
    else Normal None.

(** [validateDestinationPropertyMapping] *)
Definition validateDestinationPropertyMapping (propertyMapping : ISourceProperty)
    (destinationProperty : IDestinationProperty) (member : string)
    (srcObj dstObj : JSObject) : completion (option string) :=
  onDestination <- hasOwnProperty dstObj (dp_name destinationProperty) ;;
  if negb onDestination then
    Normal (Some ("Destination member '" ++ dp_destinationPropertyName destinationProperty
                  ++ "' is configured, but does not exist on destination type")%string)
  else if ignore destinationProperty then
    onSource <- hasOwnProperty srcObj member ;;
    if onSource then
      Normal (Some ("Destination member '" ++ member
                    ++ "' is ignored, but does exist on source type")%string)
    else Normal None
  else
    onSource <- hasOwnProperty srcObj member ;;
    if negb onSource then
      Normal (Some ("Destination member '" ++ member
                    ++ "' is configured to be mapped, but does not exist on source type")%string)
    else Normal None.

(** [validatePropertyMapping]: reading [.sourceMapping] of a [null]
    result throws a TypeError. *)
Definition validatePropertyMapping (propertyMapping : ISourceProperty)
    (member : string) (srcObj dstObj : JSObject) : completion (option string) :=
  match getDestinationProperty (sp_destinationPropertyName propertyMapping)
          propertyMapping with
  | None => Throw TypeError
  | Some destinationProperty =>
      if sourceMapping destinationProperty
      then validateSourcePropertyMapping propertyMapping destinationProperty
             member srcObj dstObj
      else validateDestinationPropertyMapping propertyMapping destinationProperty
             member srcObj dstObj
  end.

(** [validateProperty] *)
Definition validateProperty (srcMember : string) (dstObj : JSObject)
  : completion (option string) :=
  onDestination <- hasOwnProperty dstObj srcMember ;;
  if negb onDestination then
    Normal (Some ("Source member '" ++ srcMember
                  ++ "' is configured to be mapped, but does not exist on destination type")%string)
  else Normal None.

(** The text [tryHandle] throws:
    [`Mapping '${mappingKey}' is invalid: ${errorMessage} (source: '${sourceClassName}', destination: '${destinationClassName}').`] *)
Definition invalidMapping (mappingKey errorMessage sourceClassName
    destinationClassName : string) : string :=
  ("Mapping '" ++ mappingKey ++ "' is invalid: " ++ errorMessage
   ++ " (source: '" ++ sourceClassName
   ++ "', destination: '" ++ destinationClassName ++ "').")%string.

(** The per-mapping part of [assertMappingConfiguration]: the closure
    [tryHandle] and the three loops, over the variables they capture. *)
Section MappingPasses.

Variables mappingKey sourceClassName destinationClassName : string.
Variables srcObj dstObj : JSObject.

(** [tryHandle]: throws when [errorMessage] is truthy, that is, neither
    [undefined] nor the empty string. *)
Definition tryHandle (errorMessage : option string) : completion unit :=
  match errorMessage with
  | None => Normal tt
  | Some EmptyString => Normal tt
  | Some msg =>
      Throw (Error (invalidMapping mappingKey msg
                      sourceClassName destinationClassName))
  end.

(** walk member mappings *)
Fixpoint walkProperties (props : list ISourceProperty)
    (validatedMembers : list string) : completion (list string) :=
  match props with
  | [] => Normal validatedMembers
  | property :: rest =>
      msg <- validatePropertyMapping property (sp_name property) srcObj dstObj ;;
      tryHandle msg ;;;
      walkProperties rest (push validatedMembers (sp_name property))
  end.

(** walk source members *)
Fixpoint walkSourceMembers (members : list string)
    (validatedMembers : list string) : completion (list string) :=
  match members with
  | [] => Normal validatedMembers
  | srcMember :: rest =>
      own <- hasOwnProperty srcObj srcMember ;;
      if negb own then
        walkSourceMembers rest validatedMembers
      else if (indexOf validatedMembers srcMember >=? 0)%Z then
        walkSourceMembers rest validatedMembers
      else
        msg <- validateProperty srcMember dstObj ;;
        tryHandle msg ;;;
        walkSourceMembers rest (push validatedMembers srcMember)
  end.

(** walk destination members *)
Fixpoint walkDestinationMembers (members : list string)
    (validatedMembers : list string) : completion unit :=
  match members with
  | [] => Normal tt
  | dstMember :: rest =>
      own <- hasOwnProperty dstObj dstMember ;;
      if negb own then
        walkDestinationMembers rest validatedMembers
      else if (indexOf validatedMembers dstMember >=? 0)%Z then
        walkDestinationMembers rest validatedMembers
      else
        tryHandle (Some ("Destination member '" ++ dstMember
                         ++ "' does not exist on source type")%string) ;;;
        walkDestinationMembers rest validatedMembers
  end.

End MappingPasses.

(** [`${mapping.sourceKey}=>${mapping.destinationKey}`] *)
Definition mappingKeyOf (mapping : IMapping) : string :=
  (sourceKey mapping ++ "=>" ++ destinationKey mapping)%string.

Section Validator.

(** [AutoMapperHelper.getClassName] lives in another file of the
    repository; the validator only pastes its result into messages. *)
Variable getClassName : TypeClass -> string.

(** [assertMappingConfiguration] *)
Definition assertMappingConfiguration (mapping : IMapping) (strictMode : bool)
  : completion unit :=
  let mappingKey := mappingKeyOf mapping in
  match sourceTypeClass mapping, destinationTypeClass mapping with
  | Some sourceType, Some destinationType =>
      let sourceClassName := getClassName sourceType in
      let destinationClassName := getClassName destinationType in
      let srcObj := construct sourceType in
      let dstObj := construct destinationType in
      validatedMembers <-
        walkProperties mappingKey sourceClassName destinationClassName
          srcObj dstObj (properties mapping) [] ;;
      validatedMembers <-
        walkSourceMembers mappingKey sourceClassName destinationClassName
          srcObj dstObj (forIn srcObj) validatedMembers ;;
      walkDestinationMembers mappingKey sourceClassName destinationClassName
        dstObj (forIn dstObj) validatedMembers
  | _, _ =>
      if negb strictMode then Normal tt
      else Throw (Error ("Mapping '" ++ mappingKey
             ++ "' cannot be validated, since mapping.sourceType or mapping.destinationType are unspecified.")%string)
  end.

(** The loop of [assertConfigurationIsValid] over the keys [for..in]
    yields; [mappings[key]] of a missing key would be [undefined], whose
    [sourceKey] cannot be read. *)
Fixpoint walkMappings (mappings : Registry) (strictMode : bool)
    (keys : list string) : completion unit :=
  match keys with
  | [] => Normal tt
  | key :: rest =>
      own <- registryHasOwnProperty mappings key ;;
      if negb own then
        walkMappings mappings strictMode rest
      else
        match registryGet mappings key with
        | Some mapping => assertMappingConfiguration mapping strictMode
        | None => Throw TypeError
        end ;;;
        walkMappings mappings strictMode rest
  end.

(** [assertConfigurationIsValid] *)
Definition assertConfigurationIsValid (mappings : Registry) (strictMode : bool)
  : completion unit :=
  walkMappings mappings strictMode (registryForIn mappings).

(** The contract of the registry walk read as a function of its own:
    the mappings of a list are validated one after the other and the
    first failure is the outcome. *)
Fixpoint firstFailure (strictMode : bool) (mappings : list IMapping)
  : completion unit :=
  match mappings with
  | [] => Normal tt
  | mapping :: rest =>
      assertMappingConfiguration mapping strictMode ;;;
      firstFailure strictMode rest
  end.

End Validator.

(** ** Rules held in the object graph

    [children] arrays hold references, so the rules of a running program
    form a graph of objects.  [Heap] is that view: rules at addresses, and
    the same search as [getDestinationProperty], which the engine runs on
    a call stack of bounded depth ([fuel]); [None] means the stack ran
    out before the search returned. *)
Module Heap.

Definition addr := nat.

Record node := mkNode {
  n_name : string;
  n_destination : option IDestinationProperty;
  n_children : option (list addr)
}.

Definition heap := addr -> node.

Fixpoint getDestinationPropertyAt (fuel : nat) (h : heap)
    (destinationPropertyName : string) (existingSource : addr)
    : option (option IDestinationProperty) :=
  match fuel with
  | O => None
  | S fuel' =>
      match n_destination (h existingSource) with
      | Some d => Some (Some d)
      | None =>
          match n_children (h existingSource) with
          | Some cs =>
              (fix loop (cs : list addr) : option (option IDestinationProperty) :=
                 match cs with
                 | [] => Some None
                 | child :: rest =>
                     match getDestinationPropertyAt fuel' h
                             destinationPropertyName child with
                     | None => None
                     | Some (Some d) => Some (Some d)
                     | Some None => loop rest
                     end
                 end) cs
          | None => Some None
          end
      end
  end.

(** The objects reachable from [a] through [children] are laid out as
    the finite tree [t]. *)
Fixpoint represents (h : heap) (a : addr) (t : ISourceProperty) {struct t} : Prop :=
  n_name (h a) = sp_name t /\
  n_destination (h a) = destination t /\
  match children t, n_children (h a) with
  | None, None => True
  | Some ts, Some cs =>
      (fix all2 (ts : list ISourceProperty) (cs : list addr) {struct ts} : Prop :=
         match ts, cs with
         | [], [] => True
         | t' :: ts', c :: cs' => represents h c t' /\ all2 ts' cs'
         | _, _ => False
         end) ts cs
  | _, _ => False
  end.

End Heap.

(** Nesting depth of [children]. *)
Fixpoint height (t : ISourceProperty) : nat :=
  match children t with
  | Some ts =>
      S ((fix maxh (ts : list ISourceProperty) : nat :=
            match ts with
            | [] => 0
            | t' :: ts' => Nat.max (height t') (maxh ts')
            end) ts)
  | None => 0
  end.

(** The first present result of [f] along [l]. *)
Fixpoint firstSome {A B : Type} (f : A -> option B) (l : list A) : option B :=
  match l with
  | [] => None
  | x :: rest => match f x with Some y => Some y | None => firstSome f rest end
  end.

(** ** Sample configurations *)

(** An instance with the given fields and nothing in the way of
    [Object.prototype.hasOwnProperty]. *)
Definition plainObject (keys : list string) : JSObject :=
  mkObject keys [] ObjectPrototypeMethod.

Definition classOf (name : string) (keys : list string) : TypeClass :=
  mkTypeClass name (plainObject keys).

(** [{name: "secret", destination: {ignore: true, sourceMapping: true}}] *)
Definition secretIgnored : IDestinationProperty :=
  mkDestinationProperty "secret" "secret" true true.

Definition secretRule : ISourceProperty :=
  mkSourceProperty "secret" "secret" (Some secretIgnored) None.

(** Source [{id, secret}] to destination [{id}], [secret] ignored. *)
Definition ignoredSecretMapping : IMapping :=
  mkMapping "User" "UserDto"
    (Some (classOf "User" ["id"; "secret"])) (Some (classOf "UserDto" ["id"]))
    [secretRule].

(** The same rule where the destination also has [secret]. *)
Definition leakedSecretMapping : IMapping :=
  mkMapping "User" "UserDto"
    (Some (classOf "User" ["id"; "secret"]))
    (Some (classOf "UserDto" ["id"; "secret"]))
    [secretRule].

(** The same rule where neither side has [secret]. *)
Definition missingSecretMapping : IMapping :=
  mkMapping "User" "UserDto"
    (Some (classOf "User" ["id"])) (Some (classOf "UserDto" ["id"]))
    [secretRule].

(** Source [{id}] to destination [{id, extra}], no rules. *)
Definition extraMemberMapping : IMapping :=
  mkMapping "User" "UserDto"
    (Some (classOf "User" ["id"])) (Some (classOf "UserDto" ["id"; "extra"]))
    [].

(** Source [{id, name}] to destination [{id, name}], no rules. *)
Definition matchingMapping : IMapping :=
  mkMapping "User" "UserDto"
    (Some (classOf "User" ["id"; "name"])) (Some (classOf "UserDto" ["id"; "name"]))
    [].

(** A mapping registered without its source class. *)
Definition untypedMapping : IMapping :=
  mkMapping "User" "UserDto" None (Some (classOf "UserDto" ["id"])) [].

(** Destination member [fullName] configured to be filled from the
    source member [name]. *)
Definition fullNameFromName : IDestinationProperty :=
  mkDestinationProperty "fullName" "fullName" false false.

Definition renameRule : ISourceProperty :=
  mkSourceProperty "name" "fullName" (Some fullNameFromName) None.

Definition renameMapping : IMapping :=
  mkMapping "Person" "PersonDto"
    (Some (classOf "Person" ["name"])) (Some (classOf "PersonDto" ["fullName"]))
    [renameRule].

(** A rule with neither [destination] nor [children]. *)
Definition bareRule : ISourceProperty :=
  mkSourceProperty "id" "id" None None.

Definition bareMapping : IMapping :=
  mkMapping "User" "UserDto"
    (Some (classOf "User" ["id"])) (Some (classOf "UserDto" ["id"]))
    [bareRule].

(** A rule with two children, the second of which holds the
    destination. *)
Definition nestedRule : ISourceProperty :=
  mkSourceProperty "address" "street" None
    (Some [mkSourceProperty "city" "city" None None;
           mkSourceProperty "street" "street" (Some fullNameFromName) None]).

(** The objects of [nestedRule] at addresses 0, 1 and 2. *)
Definition nestedHeap : Heap.heap :=
  fun a =>
    match a with
    | 0 => Heap.mkNode "address" None (Some [1; 2])
    | 1 => Heap.mkNode "city" None None
    | _ => Heap.mkNode "street" (Some fullNameFromName) None
    end.

(** A rule that lists itself among its children. *)
Definition cyclicHeap : Heap.heap :=
  fun _ => Heap.mkNode "self" None (Some [0]).

(** A registry with two own entries and one inherited entry. *)
Definition sampleRegistry : Registry :=
  mkRegistry
    [("UserUserDto", matchingMapping); ("PersonPersonDto", extraMemberMapping)]
    [("Inherited", leakedSecretMapping)].

Definition validRegistry : Registry :=
  mkRegistry
    [("UserUserDto", matchingMapping); ("Secret", ignoredSecretMapping)]
    [("Inherited", leakedSecretMapping)].

(** The rules of a tree in the order the search meets them: a rule, then
    its children from first to last, each with its own descendants. *)
Fixpoint preorder (t : ISourceProperty) : list ISourceProperty :=
  t :: match children t with
       | Some cs =>
           (fix descend (cs : list ISourceProperty) : list ISourceProperty :=
              match cs with
              | [] => []
              | c :: rest => preorder c ++ descend rest
              end) cs
       | None => []
       end.

(** The test [!sourceType || !destinationType] of
    [assertMappingConfiguration], negated. *)
Definition hasTypeClasses (mapping : IMapping) : bool :=
  match sourceTypeClass mapping, destinationTypeClass mapping with
  | Some _, Some _ => true
  | _, _ => false
  end.

(** A registry whose first own entry has no source class. *)
Definition mixedRegistry : Registry :=
  mkRegistry
    [("Untyped", untypedMapping); ("UserUserDto", matchingMapping)]
    [].

(** Instances that inherit members from a prototype. *)
Definition derivedUser : TypeClass :=
  mkTypeClass "User" (mkObject ["id"; "name"] ["toJSON"; "id"] ObjectPrototypeMethod).

Definition derivedUserDto : TypeClass :=
  mkTypeClass "UserDto" (mkObject ["id"; "name"] ["clone"] ObjectPrototypeMethod).

Definition derivedMapping : IMapping :=
  mkMapping "User" "UserDto" (Some derivedUser) (Some derivedUserDto) [].

(** Source [{id, name}] to destination [{id}], no rules. *)
Definition droppedMemberMapping : IMapping :=
  mkMapping "User" "UserDto"
    (Some (classOf "User" ["id"; "name"])) (Some (classOf "UserDto" ["id"]))
    [].

(** Destination member [secret] ignored from the destination side. *)
Definition secretIgnoredInward : IDestinationProperty :=
  mkDestinationProperty "secret" "secret" true false.

Definition inwardSecretMapping : IMapping :=
  mkMapping "User" "UserDto"
    (Some (classOf "User" ["id"; "secret"]))
    (Some (classOf "UserDto" ["id"; "secret"]))
    [mkSourceProperty "secret" "secret" (Some secretIgnoredInward) None].

(** An instance with the given fields and one more field, named
    [hasOwnProperty], that holds data. *)
Definition shadowedObject (keys : list string) : JSObject :=
  mkObject (keys ++ ["hasOwnProperty"]) [] NotCallable.



(** Three rules in a row: one that passes, one that reports, and one
    whose destination rule does not resolve. *)
Definition idRule : ISourceProperty :=
  mkSourceProperty "id" "id" (Some (mkDestinationProperty "id" "id" false true)) None.

Definition orderedRulesMapping : IMapping :=
  mkMapping "User" "UserDto"
    (Some (classOf "User" ["id"; "secret"]))
    (Some (classOf "UserDto" ["id"; "secret"]))
    [idRule; secretRule; bareRule].

(** * Properties *)

(** ** Basic facts *)

Section TreeInduction.

Variable P : ISourceProperty -> Prop.
Hypothesis leaf : forall n dn d, P (mkSourceProperty n dn d None).
Hypothesis fork : forall n dn d cs,
    Forall P cs -> P (mkSourceProperty n dn d (Some cs)).

Fixpoint ISourceProperty_tree_ind (t : ISourceProperty) : P t :=
  match t with
  | mkSourceProperty n dn d None => leaf n dn d
  | mkSourceProperty n dn d (Some cs) =>
      fork n dn d
        ((fix all (cs : list ISourceProperty) : Forall P cs :=
            match cs with
            | [] => Forall_nil P
            | c :: rest => Forall_cons c (ISourceProperty_tree_ind c) (all rest)
            end) cs)
  end.

End TreeInduction.

Lemma getDestinationProperty_unfold n r :
  getDestinationProperty n r =
  match destination r with
  | Some d => Some d
  | None =>
      match children r with
      | Some cs => firstSome (getDestinationProperty n) cs
      | None => None
      end
  end.
Proof.
  destruct r as [nm dn [d|] [cs|]]; simpl; try reflexivity.
  induction cs as [|c rest IH]; simpl; [reflexivity|].
  destruct (getDestinationProperty n c); [reflexivity | exact IH].
Qed.

Lemma firstSome_all_None {A B} (f : A -> option B) l :
  Forall (fun x => f x = None) l -> firstSome f l = None.
Proof.
  induction 1 as [|x l Hx _ IH]; simpl; [reflexivity|].
  rewrite Hx. exact IH.
Qed.

Lemma firstSome_first {A B} (f : A -> option B) l1 x l2 y :
  Forall (fun a => f a = None) l1 -> f x = Some y ->
  firstSome f (l1 ++ x :: l2) = Some y.
Proof.
  induction 1 as [|a l Ha _ IH]; simpl; intros Hx.
  - rewrite Hx. reflexivity.
  - rewrite Ha. auto.
Qed.

Lemma firstSome_ext {A B} (f g : A -> option B) l :
  Forall (fun x => f x = g x) l -> firstSome f l = firstSome g l.
Proof.
  induction 1 as [|x l Hx _ IH]; simpl; [reflexivity|].
  rewrite Hx, IH. reflexivity.
Qed.

(** ** Destination-rule resolution *)

(** C5: [getDestinationProperty] returns [rule.destination] when present;
    otherwise, with [children] present, the result of the first child, in
    sequence order, whose own (depth-first) search is not absent, and
    absent when every child's search is; otherwise absent.  With two
    children of which only the second resolves, the result is the second
    child's destination. *)
Theorem getDestinationProperty_depth_first :
  (forall n r d, destination r = Some d -> getDestinationProperty n r = Some d) /\
  (forall n r cs, destination r = None -> children r = Some cs ->
     (forall before child after d,
         cs = before ++ child :: after ->
         Forall (fun c => getDestinationProperty n c = None) before ->
         getDestinationProperty n child = Some d ->
         getDestinationProperty n r = Some d) /\
     (Forall (fun c => getDestinationProperty n c = None) cs ->
      getDestinationProperty n r = None)) /\
  (forall n r, destination r = None -> children r = None ->
     getDestinationProperty n r = None) /\
  (forall n nm dn first second d,
     getDestinationProperty n first = None ->
     destination second = Some d ->
     getDestinationProperty n (mkSourceProperty nm dn None (Some [first; second]))
     = Some d).
Proof.
  split; [|split; [|split]].
  - intros n r d Hd. rewrite getDestinationProperty_unfold, Hd. reflexivity.
  - intros n r cs Hd Hc. split.
    + intros before child after d -> Hbefore Hchild.
      rewrite getDestinationProperty_unfold, Hd, Hc.
      now apply firstSome_first.
    + intros Hall. rewrite getDestinationProperty_unfold, Hd, Hc.
      now apply firstSome_all_None.
  - intros n r Hd Hc. rewrite getDestinationProperty_unfold, Hd, Hc. reflexivity.
  - intros n nm dn first second d Hfirst Hsecond.
    rewrite getDestinationProperty_unfold. cbn [destination children firstSome].
    rewrite Hfirst. rewrite getDestinationProperty_unfold, Hsecond. reflexivity.
Qed.

(** C10: the [destinationPropertyName] argument never influences the
    result of [getDestinationProperty]. *)
Theorem getDestinationProperty_name_irrelevant :
  forall (r : ISourceProperty) (n1 n2 : string),
    getDestinationProperty n1 r = getDestinationProperty n2 r.
Proof.
  intros r n1 n2. induction r as [nm dn d | nm dn d cs IH] using ISourceProperty_tree_ind.
  - rewrite !getDestinationProperty_unfold. reflexivity.
  - rewrite !getDestinationProperty_unfold. cbn [destination children].
    destruct d; [reflexivity|]. now apply firstSome_ext.
Qed.

Lemma height_fork nm dn d cs c :
  In c cs -> height c < height (mkSourceProperty nm dn d (Some cs)).
Proof.
  cbn [height children]. induction cs as [|x rest IH]; intros Hin; [destruct Hin|].
  destruct Hin as [->|Hin].
  - lia.
  - specialize (IH Hin). lia.
Qed.

Lemma getDestinationPropertyAt_tree (n : string) (h : Heap.heap) :
  forall (t : ISourceProperty) (a : Heap.addr) (fuel : nat),
    Heap.represents h a t -> height t < fuel ->
    Heap.getDestinationPropertyAt fuel h n a = Some (getDestinationProperty n t).
Proof.
  induction t as [nm dn d | nm dn d cs IH] using ISourceProperty_tree_ind;
    intros a fuel Hrep Hfuel.
  - destruct fuel as [|fuel]; [lia|].
    cbn in Hrep. destruct Hrep as (_ & Hd & Hc).
    rewrite getDestinationProperty_unfold. cbn [destination children].
    cbn [Heap.getDestinationPropertyAt]. rewrite Hd.
    destruct d; [reflexivity|].
    destruct (Heap.n_children (h a)); [destruct Hc | reflexivity].
  - destruct fuel as [|fuel]; [lia|].
    assert (Hh : forall c, In c cs -> height c < fuel).
    { intros c Hin. pose proof (height_fork nm dn d cs c Hin). lia. }
    clear Hfuel.
    cbn [Heap.represents sp_name destination children] in Hrep.
    destruct Hrep as (_ & Hd & Hc).
    rewrite getDestinationProperty_unfold. cbn [destination children].
    cbn [Heap.getDestinationPropertyAt]. rewrite Hd.
    destruct d; [reflexivity|].
    destruct (Heap.n_children (h a)) as [addrs|]; [|destruct Hc].
    revert addrs Hc. induction cs as [|c rest IHrest]; intros addrs Hc.
    + destruct addrs; [reflexivity | destruct Hc].
    + destruct addrs as [|a' addrs]; [destruct Hc|].
      destruct Hc as [Hc1 Hc2].
      inversion IH as [|? ? IHc IHr]; subst.
      cbn [firstSome].
      rewrite (IHc a' fuel Hc1 (Hh c (or_introl eq_refl))).
      destruct (getDestinationProperty n c); [reflexivity|].
      apply IHrest; auto.
      intros c' Hin. apply Hh. now right.
Qed.

(** C9: on every rule whose children form a finite tree, the search
    returns: from some stack depth on it yields a result, a destination
    rule or absent, and that result is the one of
    [getDestinationProperty] on the tree. *)
Theorem getDestinationProperty_terminates_on_trees :
  forall (h : Heap.heap) (a : Heap.addr) (t : ISourceProperty) (n : string),
    Heap.represents h a t ->
    exists (fuel0 : nat) (result : option IDestinationProperty),
      result = getDestinationProperty n t /\
      forall fuel, fuel0 <= fuel ->
        Heap.getDestinationPropertyAt fuel h n a = Some result.
Proof.
  intros h a t n Hrep.
  exists (S (height t)), (getDestinationProperty n t). split; [reflexivity|].
  intros fuel Hle. apply getDestinationPropertyAt_tree; [exact Hrep | lia].
Qed.

(** ** Membership tests *)

Lemma indexOf_lower_bound l x : (-1 <= indexOf l x)%Z.
Proof.
  induction l as [|y rest IH]; simpl; [lia|].
  destruct (String.eqb y x); [lia|].
  destruct (indexOf rest x <? 0)%Z eqn:E; [lia|].
  apply Z.ltb_ge in E. lia.
Qed.

Lemma indexOf_found l x : (indexOf l x >=? 0)%Z = true <-> In x l.
Proof.
  induction l as [|y rest IH]; simpl.
  - split; [discriminate | tauto].
  - destruct (String.eqb y x) eqn:E.
    + apply String.eqb_eq in E. split; [auto | reflexivity].
    + apply String.eqb_neq in E.
      destruct (indexOf rest x <? 0)%Z eqn:L.
      * apply Z.ltb_lt in L. split.
        -- discriminate.
        -- intros [H|H]; [contradiction|]. apply IH in H.
           apply Z.geb_le in H. lia.
      * apply Z.ltb_ge in L. split.
        -- intros _. right. apply IH. apply Z.geb_le. lia.
        -- intros _. apply Z.geb_le. lia.
Qed.

Lemma indexOf_not_found l x : (indexOf l x >=? 0)%Z = false <-> ~ In x l.
Proof.
  rewrite <- indexOf_found. destruct (indexOf l x >=? 0)%Z; split; congruence.
Qed.

Lemma ownsKey_In o k : ownsKey o k = true <-> In k (ownKeys o).
Proof.
  unfold ownsKey. rewrite existsb_exists. split.
  - intros (y & Hin & E). apply String.eqb_eq in E. now subst.
  - intros Hin. exists k. split; [exact Hin | apply String.eqb_refl].
Qed.

Lemma ownsKey_forIn o k : ownsKey o k = true -> In k (forIn o).
Proof.
  intros H. unfold forIn. apply in_or_app. left. now apply ownsKey_In.
Qed.

(** With nothing in the way of [Object.prototype]'s method, the call
    answers whether the key is an own one. *)
Lemma hasOwnProperty_ordinary o k :
  hasOwnPropertySlot o = ObjectPrototypeMethod ->
  hasOwnProperty o k = Normal (ownsKey o k).
Proof. unfold hasOwnProperty. now intros ->. Qed.

Lemma ordinaryInstance_slot o :
  ordinaryInstance o = true -> hasOwnPropertySlot o = ObjectPrototypeMethod.
Proof.
  unfold ordinaryInstance. destruct (hasOwnPropertySlot o); [reflexivity | discriminate ..].
Qed.

Lemma hasOwnProperty_not_callable o k :
  hasOwnPropertySlot o = NotCallable -> hasOwnProperty o k = Throw TypeError.
Proof. unfold hasOwnProperty. now intros ->. Qed.

Lemma In_push l x y : In y (push l x) <-> In y l \/ y = x.
Proof.
  unfold push. rewrite in_app_iff. simpl. intuition.
Qed.

Lemma append_cancel_l (a b c : string) : (a ++ b = a ++ c)%string -> b = c.
Proof.
  induction a as [|ch a IH]; simpl; intros H; [exact H|].
  injection H as H. auto.
Qed.

(** Every message the checks build is a truthy string. *)
Lemma tryHandle_message k s d c (rest : string) :
  tryHandle k s d (Some (String c rest)) =
  Throw (Error (invalidMapping k (String c rest) s d)).
Proof. reflexivity. Qed.

(** ** The two symmetric presence checks *)

Lemma list_ascii_of_string_app (a b : string) :
  list_ascii_of_string (a ++ b) = list_ascii_of_string a ++ list_ascii_of_string b.
Proof.
  induction a as [|c a IH]; simpl; [reflexivity|]. now rewrite IH.
Qed.

(** Two messages with a common opening are told apart by their fixed
    tails, read from the last character backwards. *)
Ltac tails_differ H :=
  apply (f_equal list_ascii_of_string) in H;
  rewrite !list_ascii_of_string_app in H;
  apply (f_equal (@rev Ascii.ascii)) in H;
  rewrite !rev_app_distr in H;
  cbn [list_ascii_of_string rev app] in H;
  discriminate H.

Ltac messages_differ :=
  let E := fresh "E" in
  intros E; try discriminate E; injection E as E;
  first [ discriminate E
        | match type of E with
          | (?m ++ _ = ?m ++ _)%string => apply (append_cancel_l m) in E; discriminate E
          end
        | tails_differ E ].

Lemma validateSourcePropertyMapping_cases p d m srcObj dstObj :
  hasOwnPropertySlot srcObj = ObjectPrototypeMethod ->
  hasOwnPropertySlot dstObj = ObjectPrototypeMethod ->
  exists r : option string,
    validateSourcePropertyMapping p d m srcObj dstObj = Normal r /\
    (r = Some ("Source member '" ++ m
               ++ "' is configured, but does not exist on source type")%string
     <-> ownsKey srcObj m = false) /\
    (ownsKey srcObj m = true -> ignore d = true ->
       (r = Some ("Source member '" ++ m
                  ++ "' is ignored, but does exist on destination type")%string
        <-> ownsKey dstObj m = true) /\
       (r = None <-> ownsKey dstObj m = false)) /\
    (ownsKey srcObj m = true -> ignore d = false ->
       (r = Some ("Source member '" ++ m
                  ++ "' is configured to be mapped, but does not exist on destination type")%string
        <-> ownsKey dstObj m = false) /\
       (r = None <-> ownsKey dstObj m = true)).
Proof.
  intros Hsrc Hdst. unfold validateSourcePropertyMapping.
  rewrite (hasOwnProperty_ordinary srcObj m Hsrc),
    (hasOwnProperty_ordinary dstObj m Hdst).
  destruct (ownsKey srcObj m), (ignore d), (ownsKey dstObj m); cbn [bind negb];
    (eexists; split; [reflexivity|]);
    (split; [split; [first [intros _; reflexivity | messages_differ] | congruence] |]);
    (split; intros Hs Hi; try discriminate Hs; try discriminate Hi);
    (split; split; congruence).
Qed.

Lemma validateDestinationPropertyMapping_cases p d m srcObj dstObj :
  hasOwnPropertySlot srcObj = ObjectPrototypeMethod ->
  hasOwnPropertySlot dstObj = ObjectPrototypeMethod ->
  exists r : option string,
    validateDestinationPropertyMapping p d m srcObj dstObj = Normal r /\
    (r = Some ("Destination member '" ++ dp_destinationPropertyName d
               ++ "' is configured, but does not exist on destination type")%string
     <-> ownsKey dstObj (dp_name d) = false) /\
    (ownsKey dstObj (dp_name d) = true -> ignore d = true ->
       (r = Some ("Destination member '" ++ m
                  ++ "' is ignored, but does exist on source type")%string
        <-> ownsKey srcObj m = true) /\
       (r = None <-> ownsKey srcObj m = false)) /\
    (ownsKey dstObj (dp_name d) = true -> ignore d = false ->
       (r = Some ("Destination member '" ++ m
                  ++ "' is configured to be mapped, but does not exist on source type")%string
        <-> ownsKey srcObj m = false) /\
       (r = None <-> ownsKey srcObj m = true)).
Proof.
  intros Hsrc Hdst. unfold validateDestinationPropertyMapping.
  rewrite (hasOwnProperty_ordinary dstObj (dp_name d) Hdst),
    (hasOwnProperty_ordinary srcObj m Hsrc).
  destruct (ownsKey dstObj (dp_name d)), (ignore d), (ownsKey srcObj m);
    cbn [bind negb];
    (eexists; split; [reflexivity|]);
    (split; [split; [first [intros _; reflexivity | messages_differ] | congruence] |]);
    (split; intros Hs Hi; try discriminate Hs; try discriminate Hi);
    (split; split; congruence).
Qed.

(** C1, as the code has it.  For a configured rule whose destination
    rule resolves, on instances where [hasOwnProperty] is the method of
    [Object.prototype], the check returns normally and its result follows
    the sequence selected by [sourceMapping].  Source-originated: the
    "configured, but does not exist on source type" message iff the
    source instance does not own the rule's name; otherwise, with
    [ignore], the "ignored" message iff the destination instance owns
    that name; otherwise the "configured to be mapped" message iff the
    destination instance does not own it.  Destination-originated: the
    mirrored sequence, where the first test is on
    [destinationProperty.name] against the destination instance and the
    next two are on the rule's name against the source instance.  In the
    remaining cases there is no error.  On an instance where the name
    [hasOwnProperty] holds a value that is no function, the first test
    of the sequence throws a TypeError instead. *)
Theorem validatePropertyMapping_symmetric_checks :
  forall (property : ISourceProperty) (d : IDestinationProperty)
         (srcObj dstObj : JSObject),
    getDestinationProperty (sp_destinationPropertyName property) property = Some d ->
    let m := sp_name property in
    (ordinaryInstance srcObj = true ->
     ordinaryInstance dstObj = true ->
     exists r : option string,
       validatePropertyMapping property m srcObj dstObj = Normal r /\
       (sourceMapping d = true ->
          (r = Some ("Source member '" ++ m
                     ++ "' is configured, but does not exist on source type")%string
           <-> ownsKey srcObj m = false) /\
          (ownsKey srcObj m = true -> ignore d = true ->
             (r = Some ("Source member '" ++ m
                        ++ "' is ignored, but does exist on destination type")%string
              <-> ownsKey dstObj m = true) /\
             (r = None <-> ownsKey dstObj m = false)) /\
          (ownsKey srcObj m = true -> ignore d = false ->
             (r = Some ("Source member '" ++ m
                        ++ "' is configured to be mapped, but does not exist on destination type")%string
              <-> ownsKey dstObj m = false) /\
             (r = None <-> ownsKey dstObj m = true))) /\
       (sourceMapping d = false ->
          (r = Some ("Destination member '" ++ dp_destinationPropertyName d
                     ++ "' is configured, but does not exist on destination type")%string
           <-> ownsKey dstObj (dp_name d) = false) /\
          (ownsKey dstObj (dp_name d) = true -> ignore d = true ->
             (r = Some ("Destination member '" ++ m
                        ++ "' is ignored, but does exist on source type")%string
              <-> ownsKey srcObj m = true) /\
             (r = None <-> ownsKey srcObj m = false)) /\
          (ownsKey dstObj (dp_name d) = true -> ignore d = false ->
             (r = Some ("Destination member '" ++ m
                        ++ "' is configured to be mapped, but does not exist on source type")%string
              <-> ownsKey srcObj m = false) /\
             (r = None <-> ownsKey srcObj m = true)))) /\
    (sourceMapping d = true -> hasOwnPropertySlot srcObj = NotCallable ->
     validatePropertyMapping property m srcObj dstObj = Throw TypeError) /\
    (sourceMapping d = false -> hasOwnPropertySlot dstObj = NotCallable ->
     validatePropertyMapping property m srcObj dstObj = Throw TypeError).
Proof.
  intros property d srcObj dstObj Hres m.
  unfold validatePropertyMapping. rewrite Hres.
  split; [|split].
  - intros Hsrc Hdst.
    apply ordinaryInstance_slot in Hsrc. apply ordinaryInstance_slot in Hdst.
    destruct (validateSourcePropertyMapping_cases property d m srcObj dstObj Hsrc Hdst)
      as (rs & Ers & Hs).
    destruct (validateDestinationPropertyMapping_cases property d m srcObj dstObj Hsrc Hdst)
      as (rd & Erd & Hd).
    destruct (sourceMapping d).
    + exists rs. split; [exact Ers|]. split; [intros _; exact Hs | discriminate].
    + exists rd. split; [exact Erd|]. split; [discriminate | intros _; exact Hd].
  - intros -> Hsrc. unfold validateSourcePropertyMapping.
    now rewrite (hasOwnProperty_not_callable srcObj m Hsrc).
  - intros -> Hdst. unfold validateDestinationPropertyMapping.
    now rewrite (hasOwnProperty_not_callable dstObj (dp_name d) Hdst).
Qed.

(** ** The three passes over one mapping *)

Section PassFacts.

Variables k s d : string.
Variables srcObj dstObj : JSObject.

Hypothesis Hsrc : hasOwnPropertySlot srcObj = ObjectPrototypeMethod.
Hypothesis Hdst : hasOwnPropertySlot dstObj = ObjectPrototypeMethod.

Local Abbreviation passA := (walkProperties k s d srcObj dstObj).
Local Abbreviation passB := (walkSourceMembers k s d srcObj dstObj).
Local Abbreviation passC := (walkDestinationMembers k s d dstObj).

(** Pass (a) pushes the name of every rule, in order. *)
Lemma walkProperties_validated props v v' :
  passA props v = Normal v' -> v' = v ++ map sp_name props.
Proof.
  revert v. induction props as [|p rest IH]; intros v; cbn [walkProperties map].
  - intros [= <-]. now rewrite app_nil_r.
  - destruct (validatePropertyMapping p (sp_name p) srcObj dstObj) as [msg|e];
      cbn [bind]; [|discriminate].
    destruct (tryHandle k s d msg); cbn [bind]; [|discriminate].
    intros H. apply IH in H. subst v'. unfold push.
    now rewrite <- app_assoc.
Qed.

(** A rule whose check reports a message stops pass (a), at that rule
    or before. *)
Lemma walkProperties_stops props v p c rest :
  In p props ->
  validatePropertyMapping p (sp_name p) srcObj dstObj = Normal (Some (String c rest)) ->
  exists e, passA props v = Throw e.
Proof.
  intros Hin Hcheck. revert v.
  induction props as [|q qs IH]; intros v; [destruct Hin|].
  cbn [walkProperties].
  destruct Hin as [->|Hin].
  - rewrite Hcheck. cbn [bind]. rewrite tryHandle_message. cbn [bind]. eauto.
  - destruct (validatePropertyMapping q (sp_name q) srcObj dstObj) as [msg|e];
      cbn [bind]; [|eauto].
    destruct (tryHandle k s d msg); cbn [bind]; [|eauto].
    apply IH, Hin.
Qed.

Lemma walkProperties_type_error props v p :
  In p props ->
  validatePropertyMapping p (sp_name p) srcObj dstObj = Throw TypeError ->
  exists e, passA props v = Throw e.
Proof.
  intros Hin Hcheck. revert v.
  induction props as [|q qs IH]; intros v; [destruct Hin|].
  cbn [walkProperties].
  destruct Hin as [->|Hin].
  - rewrite Hcheck. cbn [bind]. eauto.
  - destruct (validatePropertyMapping q (sp_name q) srcObj dstObj) as [msg|e];
      cbn [bind]; [|eauto].
    destruct (tryHandle k s d msg); cbn [bind]; [|eauto].
    apply IH, Hin.
Qed.

(** One turn of the loops of passes (b) and (c) on ordinary instances. *)
Lemma walkSourceMembers_step m rest v :
  passB (m :: rest) v =
  if negb (ownsKey srcObj m) then passB rest v
  else if (indexOf v m >=? 0)%Z then passB rest v
  else if negb (ownsKey dstObj m) then
    Throw (Error (invalidMapping k
             ("Source member '" ++ m
              ++ "' is configured to be mapped, but does not exist on destination type")
             s d))
  else passB rest (push v m).
Proof.
  cbn [walkSourceMembers]. unfold validateProperty.
  rewrite (hasOwnProperty_ordinary srcObj m Hsrc),
    (hasOwnProperty_ordinary dstObj m Hdst).
  cbn [bind].
  destruct (ownsKey srcObj m), (indexOf v m >=? 0)%Z, (ownsKey dstObj m);
    reflexivity.
Qed.

Lemma walkDestinationMembers_step m rest v :
  passC (m :: rest) v =
  if negb (ownsKey dstObj m) then passC rest v
  else if (indexOf v m >=? 0)%Z then passC rest v
  else
    Throw (Error (invalidMapping k
             ("Destination member '" ++ m ++ "' does not exist on source type")
             s d)).
Proof.
  cbn [walkDestinationMembers].
  rewrite (hasOwnProperty_ordinary dstObj m Hdst). cbn [bind].
  destruct (ownsKey dstObj m), (indexOf v m >=? 0)%Z; reflexivity.
Qed.

(** Pass (b), when it completes, has added exactly the own source
    members, and each one it added is an own destination member. *)
Lemma walkSourceMembers_validated members v v' :
  passB members v = Normal v' ->
  (forall x, In x v' <-> In x v \/ (In x members /\ ownsKey srcObj x = true)) /\
  (forall x, In x members -> ownsKey srcObj x = true -> ~ In x v ->
             ownsKey dstObj x = true).
Proof.
  revert v. induction members as [|m rest IH]; intros v.
  - intros [= <-]. split; [|intros x []]. intros x. simpl. tauto.
  - rewrite walkSourceMembers_step.
    destruct (ownsKey srcObj m) eqn:Hown; cbn [negb].
    + destruct (indexOf v m >=? 0)%Z eqn:Hidx.
      * apply indexOf_found in Hidx. intros H. apply IH in H as [H1 H2]. split.
        -- intros x. rewrite H1. simpl. split; [tauto|].
           intros [Hv|[[<-|Hr] Hx]]; auto.
        -- intros x [<-|Hr] Hx Hnv; [contradiction | eauto].
      * apply indexOf_not_found in Hidx.
        destruct (ownsKey dstObj m) eqn:Hdm; cbn [negb]; [|discriminate].
        intros H. apply IH in H as [H1 H2]. split.
        -- intros x. rewrite H1, In_push. simpl. split.
           ++ intros [[Hv| ->]|[Hr Hx]]; auto.
           ++ intros [Hv|[[<-|Hr] Hx]]; auto.
        -- intros x [<-|Hr] Hx Hnv; [exact Hdm|].
           destruct (string_dec x m) as [->|Hne]; [exact Hdm|].
           apply H2; auto. rewrite In_push. intros [Hv|E]; auto.
    + intros H. apply IH in H as [H1 H2]. split.
      * intros x. rewrite H1. simpl. split; [tauto|].
        intros [Hv|[[<-|Hr] Hx]]; auto. congruence.
      * intros x [<-|Hr] Hx Hnv; [congruence | eauto].
Qed.

(** Pass (b) only ever flags an own source member that was not in the
    validated set and that the destination instance does not own. *)
Lemma walkSourceMembers_flags members v e :
  passB members v = Throw e ->
  exists m, In m members /\ ownsKey srcObj m = true /\ ~ In m v /\
            ownsKey dstObj m = false /\
            e = Error (invalidMapping k
                ("Source member '" ++ m
                 ++ "' is configured to be mapped, but does not exist on destination type")
                s d).
Proof.
  revert v. induction members as [|m rest IH]; intros v; [discriminate|].
  rewrite walkSourceMembers_step.
  destruct (ownsKey srcObj m) eqn:Hown; cbn [negb].
  - destruct (indexOf v m >=? 0)%Z eqn:Hidx.
    + intros H. apply IH in H as (x & Hx). exists x. simpl. tauto.
    + apply indexOf_not_found in Hidx.
      destruct (ownsKey dstObj m) eqn:Hdm; cbn [negb].
      * intros H. apply IH in H as (x & Hin & Hs & Hnv & Hd & He).
        exists x. repeat split; auto.
        -- now right.
        -- intros Hv. apply Hnv. apply In_push. now left.
      * intros [= <-]. exists m. repeat split; auto. now left.
  - intros H. apply IH in H as (x & Hx). exists x. simpl. tauto.
Qed.

(** Pass (c) completes exactly when every own destination member is in
    the validated set. *)
Lemma walkDestinationMembers_passes members v :
  passC members v = Normal tt <->
  (forall x, In x members -> ownsKey dstObj x = true -> In x v).
Proof.
  induction members as [|m rest IH].
  - split; [intros _ x [] | reflexivity].
  - rewrite walkDestinationMembers_step.
    destruct (ownsKey dstObj m) eqn:Hown; cbn [negb].
    + destruct (indexOf v m >=? 0)%Z eqn:Hidx.
      * apply indexOf_found in Hidx. rewrite IH. split.
        -- intros H x [<-|Hr] Hx; auto.
        -- intros H x Hr Hx. apply H; [now right | exact Hx].
      * apply indexOf_not_found in Hidx. split; [discriminate|].
        intros H. exfalso. apply Hidx, H; [now left | exact Hown].
    + rewrite IH. split.
      * intros H x [<-|Hr] Hx; [congruence | auto].
      * intros H x Hr Hx. apply H; [now right | exact Hx].
Qed.

(** Pass (c) flags the first own destination member that is not in the
    validated set. *)
Lemma walkDestinationMembers_flags members v e :
  passC members v = Throw e ->
  exists before m after,
    members = before ++ m :: after /\
    (forall x, In x before -> ownsKey dstObj x = true -> In x v) /\
    ownsKey dstObj m = true /\ ~ In m v /\
    e = Error (invalidMapping k
          ("Destination member '" ++ m ++ "' does not exist on source type") s d).
Proof.
  induction members as [|m rest IH]; [discriminate|].
  rewrite walkDestinationMembers_step.
  destruct (ownsKey dstObj m) eqn:Hown; cbn [negb].
  - destruct (indexOf v m >=? 0)%Z eqn:Hidx.
    + apply indexOf_found in Hidx.
      intros H. apply IH in H as (b & x & a & -> & Hb & Hx).
      exists (m :: b), x, a. split; [reflexivity|]. split; [|exact Hx].
      intros y [<-|Hy] Hy'; auto.
    + apply indexOf_not_found in Hidx. intros [= <-].
      exists [], m, rest. repeat split; auto. intros x [].
  - intros H. apply IH in H as (b & x & a & -> & Hb & Hx).
    exists (m :: b), x, a. split; [reflexivity|]. split; [|exact Hx].
    intros y [<-|Hy] Hy'; [congruence | auto].
Qed.


End PassFacts.

(** ** Validation of one mapping *)

Section MappingFacts.

Variable getClassName : TypeClass -> string.

Lemma assertMappingConfiguration_with_types mapping strictMode sT dT :
  sourceTypeClass mapping = Some sT ->
  destinationTypeClass mapping = Some dT ->
  assertMappingConfiguration getClassName mapping strictMode =
  (v1 <- walkProperties (mappingKeyOf mapping) (getClassName sT) (getClassName dT)
           (construct sT) (construct dT) (properties mapping) [] ;;
   v2 <- walkSourceMembers (mappingKeyOf mapping) (getClassName sT) (getClassName dT)
           (construct sT) (construct dT) (forIn (construct sT)) v1 ;;
   walkDestinationMembers (mappingKeyOf mapping) (getClassName sT) (getClassName dT)
     (construct dT) (forIn (construct dT)) v2).
Proof.
  intros Hs Hd. unfold assertMappingConfiguration. rewrite Hs, Hd. reflexivity.
Qed.

(** C3: a mapping that lacks its source or its destination class
    returns normally when [strictMode] is false and fails with the
    "cannot be validated ... unspecified" error when it is true; the
    outcome is the same whatever [properties] holds, so no member is
    checked. *)
Theorem assertMappingConfiguration_without_types :
  forall (mapping : IMapping) (strictMode : bool),
    sourceTypeClass mapping = None \/ destinationTypeClass mapping = None ->
    assertMappingConfiguration getClassName mapping strictMode =
    (if strictMode
     then Throw (Error ("Mapping '" ++ mappingKeyOf mapping
            ++ "' cannot be validated, since mapping.sourceType or mapping.destinationType are unspecified.")%string)
     else Normal tt) /\
    forall props : list ISourceProperty,
      assertMappingConfiguration getClassName
        (mkMapping (sourceKey mapping) (destinationKey mapping)
           (sourceTypeClass mapping) (destinationTypeClass mapping) props)
        strictMode
      = assertMappingConfiguration getClassName mapping strictMode.
Proof.
  intros mapping strictMode Habsent.
  unfold assertMappingConfiguration, mappingKeyOf. cbn [sourceKey destinationKey
    sourceTypeClass destinationTypeClass properties].
  destruct Habsent as [-> | ->].
  - split; [destruct strictMode; reflexivity | reflexivity].
  - destruct (sourceTypeClass mapping);
      (split; [destruct strictMode; reflexivity | reflexivity]).
Qed.


(** C2, as the code has it, on instances where [hasOwnProperty] is the
    method of [Object.prototype]: the validated set after pass (a) is the
    list of rule names, and after pass (b) the rule names together with
    the own source members.  Passes (b) and (c) skip every name of the
    set: a failure of pass (b) names an own source member that is no
    rule name, and a failure of pass (c) names an own destination
    member that is neither a rule name nor an own source member.  With
    passes (a) and (b) completed, validation returns normally exactly
    when every own destination member is a rule name or an own source
    member; the name a rule's destination carries does not count. *)
Theorem validated_names_are_skipped :
  forall (mapping : IMapping) (strictMode : bool) (sT dT : TypeClass)
         (v1 : list string),
    sourceTypeClass mapping = Some sT ->
    destinationTypeClass mapping = Some dT ->
    ordinaryInstance (construct sT) = true ->
    ordinaryInstance (construct dT) = true ->
    walkProperties (mappingKeyOf mapping) (getClassName sT) (getClassName dT)
      (construct sT) (construct dT) (properties mapping) [] = Normal v1 ->
    v1 = map sp_name (properties mapping) /\
    (forall e,
        walkSourceMembers (mappingKeyOf mapping) (getClassName sT) (getClassName dT)
          (construct sT) (construct dT) (forIn (construct sT)) v1 = Throw e ->
        assertMappingConfiguration getClassName mapping strictMode = Throw e /\
        exists m,
          ~ In m (map sp_name (properties mapping)) /\
          ownsKey (construct sT) m = true /\
          ownsKey (construct dT) m = false /\
          e = Error (invalidMapping (mappingKeyOf mapping)
                ("Source member '" ++ m
                 ++ "' is configured to be mapped, but does not exist on destination type")
                (getClassName sT) (getClassName dT))) /\
    (forall v2,
        walkSourceMembers (mappingKeyOf mapping) (getClassName sT) (getClassName dT)
          (construct sT) (construct dT) (forIn (construct sT)) v1 = Normal v2 ->
        (forall x, In x v2 <->
                   In x (map sp_name (properties mapping))
                   \/ ownsKey (construct sT) x = true) /\
        (forall e,
            assertMappingConfiguration getClassName mapping strictMode = Throw e ->
            exists m,
              ~ In m (map sp_name (properties mapping)) /\
              ownsKey (construct sT) m = false /\
              ownsKey (construct dT) m = true /\
              e = Error (invalidMapping (mappingKeyOf mapping)
                    ("Destination member '" ++ m ++ "' does not exist on source type")
                    (getClassName sT) (getClassName dT))) /\
        (assertMappingConfiguration getClassName mapping strictMode = Normal tt <->
         forall x, ownsKey (construct dT) x = true ->
                   In x (map sp_name (properties mapping))
                   \/ ownsKey (construct sT) x = true)).
Proof.
  intros mapping strictMode sT dT v1 Hs Hd Hos Hod Ha.
  apply ordinaryInstance_slot in Hos. apply ordinaryInstance_slot in Hod.
  rewrite (assertMappingConfiguration_with_types mapping strictMode Hs Hd).
  rewrite Ha. cbn [bind].
  apply walkProperties_validated in Ha. cbn [app] in Ha. subst v1.
  split; [reflexivity|]. split.
  - intros e Hb. rewrite Hb. cbn [bind]. split; [reflexivity|].
    apply (walkSourceMembers_flags _ _ _ _ _ Hos Hod) in Hb
      as (m & _ & Hsrc & Hnv & Hdst & ->).
    exists m. auto.
  - intros v2 Hb. rewrite Hb. cbn [bind].
    apply (walkSourceMembers_validated _ _ _ _ _ Hos Hod) in Hb as [Hv2 _].
    assert (Hset : forall x, In x v2 <->
              In x (map sp_name (properties mapping))
              \/ ownsKey (construct sT) x = true).
    { intros x. rewrite Hv2. split.
      - intros [H|[_ H]]; auto.
      - intros [H|H]; auto. right.
        split; [now apply ownsKey_forIn | exact H]. }
    split; [exact Hset|]. split.
    + intros e Hc.
      apply (walkDestinationMembers_flags _ _ _ _ Hod) in Hc
        as (b & m & a & _ & _ & Hm & Hnm & ->).
      exists m. rewrite Hset in Hnm. repeat split; auto.
      destruct (ownsKey (construct sT) m); [|reflexivity].
      exfalso. apply Hnm. now right.
    + rewrite (walkDestinationMembers_passes _ _ _ _ Hod). split.
      * intros H x Hx. apply Hset. apply H; [now apply ownsKey_forIn | exact Hx].
      * intros H x _ Hx. apply Hset. auto.
Qed.

(** C6, as the code has it, on instances where [hasOwnProperty] is the
    method of [Object.prototype]: with both classes present and a rule
    whose resolved destination has [ignore] and [sourceMapping] set, an
    own destination member of the rule's name makes validation of the
    mapping fail; and when the source instance owns the name, the
    rule's check reports "is ignored, but does exist on destination
    type" iff the destination instance owns the name, and nothing
    otherwise. *)
Theorem ignored_source_member :
  forall (mapping : IMapping) (strictMode : bool) (sT dT : TypeClass)
         (p : ISourceProperty) (dp : IDestinationProperty),
    sourceTypeClass mapping = Some sT ->
    destinationTypeClass mapping = Some dT ->
    ordinaryInstance (construct sT) = true ->
    ordinaryInstance (construct dT) = true ->
    In p (properties mapping) ->
    getDestinationProperty (sp_destinationPropertyName p) p = Some dp ->
    ignore dp = true ->
    sourceMapping dp = true ->
    (ownsKey (construct dT) (sp_name p) = true ->
     exists e, assertMappingConfiguration getClassName mapping strictMode = Throw e) /\
    (ownsKey (construct sT) (sp_name p) = true ->
     (validatePropertyMapping p (sp_name p) (construct sT) (construct dT)
      = Normal (Some ("Source member '" ++ sp_name p
                      ++ "' is ignored, but does exist on destination type")%string)
      <-> ownsKey (construct dT) (sp_name p) = true) /\
     (validatePropertyMapping p (sp_name p) (construct sT) (construct dT)
      = Normal None
      <-> ownsKey (construct dT) (sp_name p) = false)).
Proof.
  intros mapping strictMode sT dT p dp Hs Hd Hos Hod Hin Hres Hign Hsm.
  apply ordinaryInstance_slot in Hos. apply ordinaryInstance_slot in Hod.
  assert (Hcheck : validatePropertyMapping p (sp_name p) (construct sT) (construct dT)
                   = validateSourcePropertyMapping p dp (sp_name p)
                       (construct sT) (construct dT)).
  { unfold validatePropertyMapping. rewrite Hres, Hsm. reflexivity. }
  split.
  - intros Hdst.
    rewrite (assertMappingConfiguration_with_types mapping strictMode Hs Hd).
    destruct (@walkProperties_stops (mappingKeyOf mapping) (getClassName sT)
                (getClassName dT) (construct sT) (construct dT)
                (properties mapping) [] p "S"%char
                (if ownsKey (construct sT) (sp_name p)
                 then ("ource member '" ++ sp_name p
                       ++ "' is ignored, but does exist on destination type")%string
                 else ("ource member '" ++ sp_name p
                       ++ "' is configured, but does not exist on source type")%string)
                Hin) as [e He].
    + rewrite Hcheck. unfold validateSourcePropertyMapping.
      rewrite (hasOwnProperty_ordinary _ _ Hos), (hasOwnProperty_ordinary _ _ Hod).
      cbn [bind]. rewrite Hign, Hdst.
      destruct (ownsKey (construct sT) (sp_name p)); reflexivity.
    + exists e. rewrite He. reflexivity.
  - intros Hsrc. rewrite Hcheck.
    destruct (validateSourcePropertyMapping_cases p dp (sp_name p)
                (construct sT) (construct dT) Hos Hod) as (r & -> & _ & Hcase & _).
    destruct (Hcase Hsrc Hign) as [H1 H2]. split.
    + rewrite <- H1. split; [intros [= E]; exact E | intros ->; reflexivity].
    + rewrite <- H2. split; [intros [= E]; exact E | intros ->; reflexivity].
Qed.

End MappingFacts.

(** ** The registry walk *)

Section RegistryFacts.

Variable getClassName : TypeClass -> string.

Lemma assoc_NoDup (l : list (string * IMapping)) key mapping :
  NoDup (map fst l) -> In (key, mapping) l -> assoc l key = Some mapping.
Proof.
  induction l as [|[k' m'] rest IH]; intros Hnd Hin; [destruct Hin|].
  cbn [map fst] in Hnd. inversion Hnd as [|? ? Hfresh Hrest]; subst.
  cbn [assoc]. destruct Hin as [[= -> ->]|Hin].
  - now rewrite String.eqb_refl.
  - destruct (String.eqb k' key) eqn:E; [|auto].
    apply String.eqb_eq in E. subst k'. exfalso. apply Hfresh.
    apply in_map_iff. exists (key, mapping). auto.
Qed.

Lemma assoc_Some_key (l : list (string * IMapping)) key mapping :
  assoc l key = Some mapping -> In key (map fst l).
Proof.
  induction l as [|[k' m'] rest IH]; cbn [assoc map fst]; [discriminate|].
  destruct (String.eqb k' key) eqn:E.
  - apply String.eqb_eq in E. now left.
  - intros H. right. auto.
Qed.

Lemma assoc_None_key (l : list (string * IMapping)) key :
  assoc l key = None -> ~ In key (map fst l).
Proof.
  induction l as [|[k' m'] rest IH]; cbn [assoc map fst]; [intros _ []|].
  destruct (String.eqb k' key) eqn:E; [discriminate|].
  apply String.eqb_neq in E. intros H [Hk|Hk]; [contradiction | now apply IH].
Qed.

Lemma registryOwnsKey_In r key :
  registryOwnsKey r key = true <-> In key (map fst (ownEntries r)).
Proof.
  unfold registryOwnsKey. rewrite existsb_exists. split.
  - intros (y & Hin & E). apply String.eqb_eq in E. now subst.
  - intros Hin. exists key. split; [exact Hin | apply String.eqb_refl].
Qed.

Lemma registryHasOwnProperty_ordinary r key :
  registryGet r "hasOwnProperty" = None ->
  registryHasOwnProperty r key = Normal (registryOwnsKey r key).
Proof. unfold registryHasOwnProperty. now intros ->. Qed.

Lemma registryHasOwnProperty_shadowed r key shadow :
  registryGet r "hasOwnProperty" = Some shadow ->
  registryHasOwnProperty r key = Throw TypeError.
Proof. unfold registryHasOwnProperty. now intros ->. Qed.

(** An entry of any name is met by [for..in]. *)
Lemma registryGet_forIn r key mapping :
  registryGet r key = Some mapping -> In key (registryForIn r).
Proof.
  unfold registryGet, registryForIn. intros H. apply in_or_app.
  destruct (assoc (ownEntries r) key) eqn:Eown.
  - left. exact (assoc_Some_key _ _ Eown).
  - right. apply filter_In. split; [exact (assoc_Some_key _ _ H)|].
    destruct (registryOwnsKey r key) eqn:E; [|reflexivity].
    apply registryOwnsKey_In in E. exfalso. exact (assoc_None_key _ _ Eown E).
Qed.

Lemma walkMappings_app r strictMode l1 l2 :
  walkMappings getClassName r strictMode (l1 ++ l2) =
  (walkMappings getClassName r strictMode l1 ;;;
   walkMappings getClassName r strictMode l2).
Proof.
  induction l1 as [|key rest IH]; cbn [app walkMappings bind]; [reflexivity|].
  destruct (registryHasOwnProperty r key) as [own|e]; cbn [bind]; [|reflexivity].
  destruct (negb own); [exact IH|].
  destruct (match registryGet r key with
            | Some mapping => assertMappingConfiguration getClassName mapping strictMode
            | None => Throw TypeError
            end); cbn [bind]; [exact IH | reflexivity].
Qed.

Lemma walkMappings_inherited r strictMode keys :
  registryGet r "hasOwnProperty" = None ->
  walkMappings getClassName r strictMode
    (filter (fun key => negb (registryOwnsKey r key)) keys) = Normal tt.
Proof.
  intros Hplain. induction keys as [|key rest IH]; cbn [filter]; [reflexivity|].
  destruct (negb (registryOwnsKey r key)) eqn:E; [|exact IH].
  cbn [walkMappings]. rewrite (registryHasOwnProperty_ordinary r key Hplain).
  cbn [bind]. rewrite E. exact IH.
Qed.

Lemma walkMappings_own r strictMode (entries : list (string * IMapping)) :
  registryGet r "hasOwnProperty" = None ->
  (forall key mapping, In (key, mapping) entries ->
     registryOwnsKey r key = true /\ registryGet r key = Some mapping) ->
  walkMappings getClassName r strictMode (map fst entries) =
  firstFailure getClassName strictMode (map snd entries).
Proof.
  intros Hplain.
  induction entries as [|[key mapping] rest IH]; intros Hall; [reflexivity|].
  cbn [map fst snd walkMappings firstFailure].
  destruct (Hall key mapping (or_introl eq_refl)) as [Hown Hget].
  rewrite (registryHasOwnProperty_ordinary r key Hplain). cbn [bind].
  rewrite Hown, Hget. cbn [negb]. rewrite IH; [reflexivity|].
  intros key' mapping' Hin. apply Hall. now right.
Qed.


Lemma firstFailure_all_valid strictMode mappings :
  (forall m, In m mappings ->
     assertMappingConfiguration getClassName m strictMode = Normal tt) ->
  firstFailure getClassName strictMode mappings = Normal tt.
Proof.
  induction mappings as [|m rest IH]; intros Hok; cbn [firstFailure]; [reflexivity|].
  rewrite (Hok m (or_introl eq_refl)). cbn [bind].
  apply IH. intros m' Hin. apply Hok. now right.
Qed.

(** The walk over a registry object: with an entry named
    [hasOwnProperty] in the way, the first key already ends it in a
    TypeError; otherwise it validates the own entries in their order. *)
Lemma assertConfigurationIsValid_walk mappings strictMode :
  NoDup (map fst (ownEntries mappings)) ->
  assertConfigurationIsValid getClassName mappings strictMode =
  match registryGet mappings "hasOwnProperty" with
  | Some _ => Throw TypeError
  | None => firstFailure getClassName strictMode (map snd (ownEntries mappings))
  end.
Proof.
  intros Hnd. unfold assertConfigurationIsValid.
  destruct (registryGet mappings "hasOwnProperty") as [shadow|] eqn:Hget.
  - pose proof (registryGet_forIn _ _ Hget) as Hin.
    destruct (registryForIn mappings) as [|key rest]; [destruct Hin|].
    cbn [walkMappings].
    now rewrite (registryHasOwnProperty_shadowed mappings key Hget).
  - unfold registryForIn.
    rewrite walkMappings_app, (walkMappings_inherited _ _ _ Hget),
      (walkMappings_own _ _ _ Hget).
    + destruct (firstFailure getClassName strictMode (map snd (ownEntries mappings)))
        as [[]|e]; reflexivity.
    + intros key mapping Hin. split.
      * apply registryOwnsKey_In. apply in_map_iff. exists (key, mapping). auto.
      * unfold registryGet. now rewrite (assoc_NoDup _ _ _ Hnd Hin).
Qed.


End RegistryFacts.

(** ** The properties on the sample configurations *)

(** Without the finite-tree shape the search need not return: on a rule
    that is its own child it exhausts every stack. *)
Lemma getDestinationPropertyAt_cycle (n : string) :
  forall fuel, Heap.getDestinationPropertyAt fuel cyclicHeap n 0 = None.
Proof.
  induction fuel as [|fuel IH]; [reflexivity|].
  cbn [Heap.getDestinationPropertyAt cyclicHeap Heap.n_destination Heap.n_children].
  rewrite IH. reflexivity.
Qed.

Lemma validatePropertyMapping_symmetric_checks_witness :
  getDestinationProperty (sp_destinationPropertyName secretRule) secretRule
  = Some secretIgnored /\
  validatePropertyMapping secretRule (sp_name secretRule)
    (plainObject ["id"; "secret"]) (plainObject ["id"; "secret"])
  = Normal (Some "Source member 'secret' is ignored, but does exist on destination type").
Proof.
  split; [reflexivity|].
  destruct (validatePropertyMapping_symmetric_checks secretRule
              (plainObject ["id"; "secret"]) (plainObject ["id"; "secret"]) eq_refl)
    as (Hordinary & _).
  destruct (Hordinary eq_refl eq_refl) as (r & Hr & Hsource & _).
  rewrite Hr. f_equal.
  destruct (Hsource eq_refl) as (_ & Hignored & _).
  apply (Hignored eq_refl eq_refl). reflexivity.
Defined.

Lemma getDestinationProperty_depth_first_witness :
  getDestinationProperty "street" (mkSourceProperty "city" "city" None None) = None /\
  destination (mkSourceProperty "street" "street" (Some fullNameFromName) None)
  = Some fullNameFromName /\
  getDestinationProperty "street" nestedRule = Some fullNameFromName.
Proof.
  split; [reflexivity|]. split; [reflexivity|].
  destruct getDestinationProperty_depth_first as (_ & _ & _ & Htwo).
  apply Htwo; reflexivity.
Defined.

Lemma getDestinationProperty_terminates_on_trees_witness :
  Heap.represents nestedHeap 0 nestedRule /\
  exists fuel0 result,
    result = getDestinationProperty "street" nestedRule /\
    forall fuel, fuel0 <= fuel ->
      Heap.getDestinationPropertyAt fuel nestedHeap "street" 0 = Some result.
Proof.
  assert (H : Heap.represents nestedHeap 0 nestedRule).
  { cbn. repeat split. }
  split; [exact H|].
  exact (getDestinationProperty_terminates_on_trees nestedHeap 0 nestedRule "street" H).
Defined.

Lemma assertMappingConfiguration_without_types_witness :
  (sourceTypeClass untypedMapping = None \/ destinationTypeClass untypedMapping = None) /\
  assertMappingConfiguration typeName untypedMapping false = Normal tt /\
  assertMappingConfiguration typeName untypedMapping true
  = Throw (Error "Mapping 'User=>UserDto' cannot be validated, since mapping.sourceType or mapping.destinationType are unspecified.").
Proof.
  assert (H : sourceTypeClass untypedMapping = None
              \/ destinationTypeClass untypedMapping = None) by (left; reflexivity).
  split; [exact H|]. split.
  - exact (proj1 (assertMappingConfiguration_without_types typeName untypedMapping false H)).
  - exact (proj1 (assertMappingConfiguration_without_types typeName untypedMapping true H)).
Defined.



(** The rule [name -> fullName] passes its check in pass (a), yet pass
    (c) flags the destination member [fullName] the rule targets: only
    the rule's own name has entered the validated set. *)
Lemma destination_side_name_is_flagged :
  getDestinationProperty (sp_destinationPropertyName renameRule) renameRule
  = Some fullNameFromName /\
  dp_name fullNameFromName = "fullName"%string /\
  walkProperties (mappingKeyOf renameMapping) "Person" "PersonDto"
    (plainObject ["name"]) (plainObject ["fullName"]) (properties renameMapping) []
  = Normal ["name"%string] /\
  assertMappingConfiguration typeName renameMapping false
  = Throw (Error "Mapping 'Person=>PersonDto' is invalid: Destination member 'fullName' does not exist on source type (source: 'Person', destination: 'PersonDto').").
Proof. repeat split. Qed.

Lemma validated_names_are_skipped_witness :
  walkProperties (mappingKeyOf renameMapping) "Person" "PersonDto"
    (plainObject ["name"]) (plainObject ["fullName"]) (properties renameMapping) []
  = Normal ["name"%string] /\
  exists m,
    ~ In m (map sp_name (properties renameMapping)) /\
    ownsKey (plainObject ["name"]) m = false /\
    ownsKey (plainObject ["fullName"]) m = true /\
    assertMappingConfiguration typeName renameMapping false
    = Throw (Error (invalidMapping "Person=>PersonDto"
               ("Destination member '" ++ m ++ "' does not exist on source type")
               "Person" "PersonDto")).
Proof.
  split; [reflexivity|].
  destruct (validated_names_are_skipped typeName renameMapping false
              (sT := classOf "Person" ["name"]) (dT := classOf "PersonDto" ["fullName"])
              (v1 := ["name"%string]) eq_refl eq_refl eq_refl eq_refl eq_refl)
    as (_ & _ & Hafter).
  destruct (Hafter ["name"%string] eq_refl) as (_ & Hflag & _).
  destruct (Hflag _ eq_refl) as (m & Hrule & Hsrc & Hdst & He).
  exists m. repeat split; try assumption.
  exact (f_equal (@Throw unit) He).
Defined.

(** The ignore rule on [secret] where neither instance has [secret]:
    validation fails although [secret] is no own member of the
    destination instance. *)
Lemma ignored_rule_fails_without_destination_member :
  In secretRule (properties missingSecretMapping) /\
  getDestinationProperty (sp_destinationPropertyName secretRule) secretRule
  = Some secretIgnored /\
  ignore secretIgnored = true /\
  sourceMapping secretIgnored = true /\
  assertMappingConfiguration typeName missingSecretMapping false
  = Throw (Error "Mapping 'User=>UserDto' is invalid: Source member 'secret' is configured, but does not exist on source type (source: 'User', destination: 'UserDto').") /\
  ~ ((exists e, assertMappingConfiguration typeName missingSecretMapping false = Throw e)
     <-> hasOwnProperty (plainObject ["id"]) (sp_name secretRule) = Normal true).
Proof.
  split; [now left|]. repeat (split; [reflexivity|]).
  intros [Hfails _].
  assert (H : hasOwnProperty (plainObject ["id"]) (sp_name secretRule) = Normal true).
  { apply Hfails. eexists. reflexivity. }
  discriminate H.
Qed.

Lemma ignored_source_member_witness :
  In secretRule (properties leakedSecretMapping) /\
  getDestinationProperty (sp_destinationPropertyName secretRule) secretRule
  = Some secretIgnored /\
  ownsKey (plainObject ["id"; "secret"]) (sp_name secretRule) = true /\
  (exists e, assertMappingConfiguration typeName leakedSecretMapping false = Throw e) /\
  validatePropertyMapping secretRule (sp_name secretRule)
    (plainObject ["id"; "secret"]) (plainObject ["id"; "secret"])
  = Normal (Some "Source member 'secret' is ignored, but does exist on destination type").
Proof.
  assert (Hin : In secretRule (properties leakedSecretMapping)) by (now left).
  split; [exact Hin|]. split; [reflexivity|]. split; [reflexivity|].
  destruct (ignored_source_member typeName leakedSecretMapping false
              (sT := classOf "User" ["id"; "secret"])
              (dT := classOf "UserDto" ["id"; "secret"])
              secretRule (dp := secretIgnored)
              eq_refl eq_refl eq_refl eq_refl Hin eq_refl eq_refl eq_refl)
    as (Hfails & Hcheck).
  split.
  - apply Hfails. reflexivity.
  - destruct (Hcheck eq_refl) as (Hreport & _). apply Hreport. reflexivity.
Defined.

(** A source instance with a data field named [hasOwnProperty]: it owns
    [secret], the rule ignores [secret], the destination has no such
    member, and yet the check ends in a TypeError instead of reporting
    no error. *)
Lemma shadowed_hasOwnProperty_stops_the_check :
  getDestinationProperty (sp_destinationPropertyName secretRule) secretRule
  = Some secretIgnored /\
  sourceMapping secretIgnored = true /\
  ignore secretIgnored = true /\
  In "secret"%string (ownKeys (shadowedObject ["id"; "secret"])) /\
  ~ In "secret"%string (ownKeys (plainObject ["id"])) /\
  validatePropertyMapping secretRule (sp_name secretRule)
    (shadowedObject ["id"; "secret"]) (plainObject ["id"]) = Throw TypeError /\
  validatePropertyMapping secretRule (sp_name secretRule)
    (shadowedObject ["id"; "secret"]) (plainObject ["id"]) <> Normal None.
Proof.
  split; [reflexivity|]. split; [reflexivity|]. split; [reflexivity|].
  split; [cbn; auto|]. split.
  - cbn. intros [E|[]]. discriminate E.
  - split; [reflexivity | discriminate].
Qed.



(** C8 does not hold on the code: for a rule with neither [destination]
    nor [children] the resolution is absent, and [validatePropertyMapping]
    reads [sourceMapping] of that absent result, so the call and the
    validation of the mapping end in a TypeError instead of a check
    result. *)
Theorem validatePropertyMapping_absent_destination :
  destination bareRule = None /\ children bareRule = None /\
  getDestinationProperty (sp_destinationPropertyName bareRule) bareRule = None /\
  validatePropertyMapping bareRule (sp_name bareRule)
    (plainObject ["id"]) (plainObject ["id"]) = Throw TypeError /\
  assertMappingConfiguration typeName bareMapping false = Throw TypeError /\
  assertMappingConfiguration typeName bareMapping true = Throw TypeError.
Proof. repeat split. Qed.

(** The example scenarios of the specification. *)

Example scenario_matching_members :
  assertMappingConfiguration typeName matchingMapping true = Normal tt.
Proof. reflexivity. Qed.

Example scenario_ignored_secret :
  assertMappingConfiguration typeName ignoredSecretMapping true = Normal tt.
Proof. reflexivity. Qed.

Example scenario_leaked_secret :
  assertMappingConfiguration typeName leakedSecretMapping true
  = Throw (Error "Mapping 'User=>UserDto' is invalid: Source member 'secret' is ignored, but does exist on destination type (source: 'User', destination: 'UserDto').").
Proof. reflexivity. Qed.

Example scenario_extra_destination_member :
  assertMappingConfiguration typeName extraMemberMapping true
  = Throw (Error "Mapping 'User=>UserDto' is invalid: Destination member 'extra' does not exist on source type (source: 'User', destination: 'UserDto').").
Proof. reflexivity. Qed.

Example scenario_valid_registry :
  assertConfigurationIsValid typeName validRegistry true = Normal tt.
Proof. reflexivity. Qed.

(** * Further properties of the validator *)

(** ** Resolution along the rule tree *)

Lemma firstSome_app {A B} (f : A -> option B) l1 l2 :
  firstSome f (l1 ++ l2) =
  match firstSome f l1 with Some y => Some y | None => firstSome f l2 end.
Proof.
  induction l1 as [|x rest IH]; simpl; [reflexivity|].
  destruct (f x); [reflexivity | exact IH].
Qed.

Lemma firstSome_None_iff {A B} (f : A -> option B) l :
  firstSome f l = None <-> forall x, In x l -> f x = None.
Proof.
  induction l as [|x rest IH]; simpl.
  - split; [intros _ y [] | reflexivity].
  - destruct (f x) eqn:E.
    + split; [discriminate|]. intros H. rewrite <- E. apply H. now left.
    + rewrite IH. split.
      * intros H y [<-|Hy]; auto.
      * intros H y Hy. apply H. now right.
Qed.

Lemma firstSome_Some_In {A B} (f : A -> option B) l y :
  firstSome f l = Some y -> exists x, In x l /\ f x = Some y.
Proof.
  induction l as [|x rest IH]; simpl; [discriminate|].
  destruct (f x) eqn:E.
  - intros [= <-]. exists x. auto.
  - intros H. destruct (IH H) as (x' & Hin & Hx'). exists x'. auto.
Qed.

Lemma preorder_unfold t :
  preorder t =
  t :: match children t with
       | Some cs => flat_map preorder cs
       | None => []
       end.
Proof.
  destruct t as [nm dn dst [cs|]]; reflexivity.
Qed.

Lemma getDestinationProperty_preorder n t :
  getDestinationProperty n t = firstSome destination (preorder t).
Proof.
  induction t as [nm dn dst | nm dn dst cs IH] using ISourceProperty_tree_ind.
  - rewrite getDestinationProperty_unfold, preorder_unfold. cbn.
    destruct dst; reflexivity.
  - rewrite getDestinationProperty_unfold, preorder_unfold.
    cbn [destination children firstSome].
    destruct dst; [reflexivity|].
    induction IH as [|c rest Hc _ IHrest]; [reflexivity|].
    cbn [firstSome flat_map]. rewrite firstSome_app, <- Hc.
    destruct (getDestinationProperty n c); [reflexivity | exact IHrest].
Qed.

(** X1: the result of [getDestinationProperty] is the destination of the
    first rule, in depth-first order from the rule itself, that holds
    one; it is absent exactly when no rule of the tree holds a
    destination, and a present result is the destination of some rule of
    the tree. *)
Theorem getDestinationProperty_first_in_preorder :
  forall (n : string) (t : ISourceProperty),
    getDestinationProperty n t = firstSome destination (preorder t) /\
    (getDestinationProperty n t = None <->
     forall r, In r (preorder t) -> destination r = None) /\
    (forall dp, getDestinationProperty n t = Some dp ->
                exists r, In r (preorder t) /\ destination r = Some dp).
Proof.
  intros n t. rewrite getDestinationProperty_preorder.
  split; [reflexivity|]. split.
  - apply firstSome_None_iff.
  - intros dp. apply firstSome_Some_In.
Qed.

(** X2: a rule without destination that occurs among its own children,
    after children whose search finds nothing, is never resolved: the
    search runs out of stack at every depth. *)
Theorem getDestinationPropertyAt_self_reference :
  forall (h : Heap.heap) (n : string) (a : Heap.addr)
         (before after : list Heap.addr),
    Heap.n_destination (h a) = None ->
    Heap.n_children (h a) = Some (before ++ a :: after) ->
    (forall c fuel dp, In c before ->
       Heap.getDestinationPropertyAt fuel h n c <> Some (Some dp)) ->
    forall fuel, Heap.getDestinationPropertyAt fuel h n a = None.
Proof.
  intros h n a before after Hd Hc Hquiet fuel.
  induction fuel as [|fuel IH]; [reflexivity|].
  cbn [Heap.getDestinationPropertyAt]. rewrite Hd, Hc.
  clear Hc. induction before as [|c rest IHrest]; cbn [app].
  - rewrite IH. reflexivity.
  - destruct (Heap.getDestinationPropertyAt fuel h n c) as [[dp|]|] eqn:E.
    + exfalso. apply (Hquiet c fuel dp); [now left | exact E].
    + apply IHrest. intros c' fuel' dp' Hin. apply Hquiet. now right.
    + reflexivity.
Qed.

Lemma getDestinationPropertyAt_self_reference_witness :
  Heap.n_destination (cyclicHeap 0) = None /\
  Heap.n_children (cyclicHeap 0) = Some ([] ++ 0 :: []) /\
  forall fuel, Heap.getDestinationPropertyAt fuel cyclicHeap "self" 0 = None.
Proof.
  split; [reflexivity|]. split; [reflexivity|].
  apply (getDestinationPropertyAt_self_reference cyclicHeap "self" 0 [] []
           eq_refl eq_refl).
  intros c fuel dp [].
Defined.

(** ** Outcomes of the per-rule check *)

Lemma validatePropertyMapping_message p m srcObj dstObj msg :
  validatePropertyMapping p m srcObj dstObj = Normal (Some msg) ->
  exists c rest, msg = String c rest.
Proof.
  unfold validatePropertyMapping.
  destruct (getDestinationProperty (sp_destinationPropertyName p) p) as [dp|];
    [|discriminate].
  unfold validateSourcePropertyMapping, validateDestinationPropertyMapping.
  destruct (sourceMapping dp), (ignore dp);
    repeat match goal with
           | |- context [bind ?c _] => destruct c as [[|]|]; cbn [bind negb]
           end;
    intros E; try discriminate E; injection E as <-; cbn; eauto.
Qed.

Section RuleWalk.

Variables k s d : string.
Variables srcObj dstObj : JSObject.

Hypothesis Hsrc : hasOwnPropertySlot srcObj = ObjectPrototypeMethod.
Hypothesis Hdst : hasOwnPropertySlot dstObj = ObjectPrototypeMethod.


Local Abbreviation check := (fun p => validatePropertyMapping p (sp_name p) srcObj dstObj).
Local Abbreviation passA := (walkProperties k s d srcObj dstObj).
Local Abbreviation passB := (walkSourceMembers k s d srcObj dstObj).
Local Abbreviation passC := (walkDestinationMembers k s d dstObj).

Lemma walkProperties_all_pass props v :
  (forall p, In p props -> check p = Normal None) ->
  passA props v = Normal (v ++ map sp_name props).
Proof.
  revert v. induction props as [|p rest IH]; intros v Hall; cbn [walkProperties map].
  - now rewrite app_nil_r.
  - rewrite (Hall p (or_introl eq_refl)). cbn [bind tryHandle].
    rewrite IH; [|intros q Hq; apply Hall; now right].
    unfold push. now rewrite <- app_assoc.
Qed.

Lemma walkProperties_normal_inv props v v' :
  passA props v = Normal v' -> forall p, In p props -> check p = Normal None.
Proof.
  revert v. induction props as [|q rest IH]; intros v H p Hin; [destruct Hin|].
  cbn [walkProperties] in H.
  destruct (validatePropertyMapping q (sp_name q) srcObj dstObj) as [[msg|]|e] eqn:E;
    cbn [bind] in H.
  - apply validatePropertyMapping_message in E as (c & r & ->).
    rewrite tryHandle_message in H. discriminate H.
  - cbn [tryHandle bind] in H.
    destruct Hin as [<-|Hin]; [exact E | exact (IH _ H p Hin)].
  - discriminate H.
Qed.

(** The rules before the first one that does not pass have no effect on
    the outcome of pass (a). *)
Lemma walkProperties_first before p after v :
  (forall q, In q before -> check q = Normal None) ->
  passA (before ++ p :: after) v =
  match check p with
  | Normal None =>
      passA after (v ++ map sp_name before ++ [sp_name p])
  | Normal (Some msg) => Throw (Error (invalidMapping k msg s d))
  | Throw e => Throw e
  end.
Proof.
  revert v. induction before as [|q rest IH]; intros v Hall; cbn [app walkProperties map].
  - destruct (validatePropertyMapping p (sp_name p) srcObj dstObj) as [[msg|]|e] eqn:E;
      cbn [bind]; try reflexivity.
    apply validatePropertyMapping_message in E as (c & r & ->). reflexivity.
  - rewrite (Hall q (or_introl eq_refl)). cbn [bind tryHandle].
    rewrite IH; [|intros q' Hq'; apply Hall; now right].
    unfold push. rewrite <- app_assoc. reflexivity.
Qed.


Lemma walkProperties_rejects props v p :
  In p props -> check p <> Normal None -> exists e, passA props v = Throw e.
Proof.
  intros Hin Hbad. destruct (passA props v) as [v'|e] eqn:E; [|eauto].
  exfalso. apply Hbad. exact (walkProperties_normal_inv _ _ E p Hin).
Qed.

(** Pass (b) completes exactly when every own source member outside the
    validated set is an own destination member. *)
Lemma walkSourceMembers_completes members v :
  (exists v', passB members v = Normal v') <->
  (forall x, In x members -> ownsKey srcObj x = true -> ~ In x v ->
             ownsKey dstObj x = true).
Proof.
  split.
  - intros [v' H]. exact (proj2 (walkSourceMembers_validated _ _ _ _ _ Hsrc Hdst _ _ H)).
  - intros Hall. destruct (passB members v) as [v'|e] eqn:E; [eauto|].
    apply (walkSourceMembers_flags _ _ _ _ _ Hsrc Hdst) in E
      as (m & Hin & Hsm & Hnv & Hdm & _).
    rewrite (Hall m Hin Hsm Hnv) in Hdm. discriminate Hdm.
Qed.

(** The walks look at ordinary instances through their own keys alone. *)
Lemma walkProperties_same_own srcObj' dstObj' props v :
  hasOwnPropertySlot srcObj' = ObjectPrototypeMethod ->
  hasOwnPropertySlot dstObj' = ObjectPrototypeMethod ->
  ownKeys srcObj' = ownKeys srcObj -> ownKeys dstObj' = ownKeys dstObj ->
  walkProperties k s d srcObj' dstObj' props v = passA props v.
Proof.
  intros Hsrc' Hdst' Hs Hd. revert v.
  induction props as [|p rest IH]; intros v; [reflexivity|].
  cbn [walkProperties]. rewrite IH.
  replace (validatePropertyMapping p (sp_name p) srcObj' dstObj')
    with (validatePropertyMapping p (sp_name p) srcObj dstObj); [reflexivity|].
  unfold validatePropertyMapping.
  destruct (getDestinationProperty (sp_destinationPropertyName p) p) as [dp|];
    [|reflexivity].
  unfold validateSourcePropertyMapping, validateDestinationPropertyMapping.
  rewrite ?(hasOwnProperty_ordinary srcObj _ Hsrc), ?(hasOwnProperty_ordinary dstObj _ Hdst),
    ?(hasOwnProperty_ordinary srcObj' _ Hsrc'), ?(hasOwnProperty_ordinary dstObj' _ Hdst').
  unfold ownsKey. now rewrite Hs, Hd.
Qed.

Lemma walkSourceMembers_same_own srcObj' dstObj' members v :
  hasOwnPropertySlot srcObj' = ObjectPrototypeMethod ->
  hasOwnPropertySlot dstObj' = ObjectPrototypeMethod ->
  ownKeys srcObj' = ownKeys srcObj -> ownKeys dstObj' = ownKeys dstObj ->
  walkSourceMembers k s d srcObj' dstObj' members v = passB members v.
Proof.
  intros Hsrc' Hdst' Hs Hd. revert v.
  induction members as [|m rest IH]; intros v; [reflexivity|].
  rewrite (walkSourceMembers_step k s d srcObj dstObj Hsrc Hdst),
    (walkSourceMembers_step k s d srcObj' dstObj' Hsrc' Hdst'), !IH.
  unfold ownsKey. now rewrite Hs, Hd.
Qed.

Lemma walkDestinationMembers_same_own dstObj' members v :
  hasOwnPropertySlot dstObj' = ObjectPrototypeMethod ->
  ownKeys dstObj' = ownKeys dstObj ->
  walkDestinationMembers k s d dstObj' members v = passC members v.
Proof.
  intros Hdst' Hd. induction members as [|m rest IH]; [reflexivity|].
  rewrite (walkDestinationMembers_step k s d dstObj Hdst),
    (walkDestinationMembers_step k s d dstObj' Hdst'), !IH.
  unfold ownsKey. now rewrite Hd.
Qed.

(** Inherited keys are skipped by passes (b) and (c). *)
Lemma walkSourceMembers_forIn v :
  passB (forIn srcObj) v = passB (ownKeys srcObj) v.
Proof.
  unfold forIn. generalize (protoKeys srcObj) as inherited. intros inherited.
  generalize (ownKeys srcObj) as own. intros own. revert v.
  induction own as [|m rest IH]; intros v; cbn [app].
  - induction inherited as [|m rest IH]; cbn [filter]; [reflexivity|].
    destruct (negb (ownsKey srcObj m)) eqn:E; [|exact IH].
    rewrite (walkSourceMembers_step k s d srcObj dstObj Hsrc Hdst), E. exact IH.
  - rewrite !(walkSourceMembers_step k s d srcObj dstObj Hsrc Hdst), !IH. reflexivity.
Qed.

Lemma walkDestinationMembers_forIn v :
  passC (forIn dstObj) v = passC (ownKeys dstObj) v.
Proof.
  unfold forIn. generalize (protoKeys dstObj) as inherited. intros inherited.
  generalize (ownKeys dstObj) as own. intros own.
  induction own as [|m rest IH]; cbn [app].
  - induction inherited as [|m rest IH]; cbn [filter]; [reflexivity|].
    destruct (negb (ownsKey dstObj m)) eqn:E; [|exact IH].
    rewrite (walkDestinationMembers_step k s d dstObj Hdst), E. exact IH.
  - rewrite !(walkDestinationMembers_step k s d dstObj Hdst), !IH. reflexivity.
Qed.

End RuleWalk.


(** ** Outcomes of the validation of one mapping *)

Section MappingOutcomes.

Variable getClassName : TypeClass -> string.

Lemma assertMappingConfiguration_normal_iff mapping strictMode sT dT :
  sourceTypeClass mapping = Some sT ->
  destinationTypeClass mapping = Some dT ->
  hasOwnPropertySlot (construct sT) = ObjectPrototypeMethod ->
  hasOwnPropertySlot (construct dT) = ObjectPrototypeMethod ->
  (assertMappingConfiguration getClassName mapping strictMode = Normal tt <->
   (forall p, In p (properties mapping) ->
      validatePropertyMapping p (sp_name p) (construct sT) (construct dT)
      = Normal None) /\
   (forall x, ownsKey (construct sT) x = true ->
      ~ In x (map sp_name (properties mapping)) ->
      ownsKey (construct dT) x = true) /\
   (forall x, ownsKey (construct dT) x = true ->
      In x (map sp_name (properties mapping))
      \/ ownsKey (construct sT) x = true)).
Proof.
  intros Hs Hd Hos Hod.
  rewrite (assertMappingConfiguration_with_types getClassName mapping strictMode Hs Hd).
  set (k := mappingKeyOf mapping). set (s := getClassName sT). set (d := getClassName dT).
  split.
  - intros H.
    destruct (walkProperties k s d (construct sT) (construct dT) (properties mapping) [])
      as [v1|e] eqn:Ea; cbn [bind] in H; [|discriminate H].
    destruct (walkSourceMembers k s d (construct sT) (construct dT)
                (forIn (construct sT)) v1) as [v2|e] eqn:Eb;
      cbn [bind] in H; [|discriminate H].
    pose proof (walkProperties_normal_inv _ _ _ _ _ _ _ Ea) as Hrules.
    apply walkProperties_validated in Ea. cbn [app] in Ea. subst v1.
    apply (walkSourceMembers_validated _ _ _ _ _ Hos Hod) in Eb as [Hv2 Hb].
    split; [exact Hrules|]. split.
    + intros x Hx Hnx. apply Hb; auto. now apply ownsKey_forIn.
    + intros x Hx.
      apply (proj1 (walkDestinationMembers_passes _ _ _ _ Hod _ _) H x) in Hx;
        [|now apply ownsKey_forIn].
      apply Hv2 in Hx as [Hx|[_ Hx]]; auto.
  - intros (Hrules & Hb & Hc).
    rewrite (walkProperties_all_pass k s d _ _ _ [] Hrules). cbn [app bind].
    destruct (proj2 (walkSourceMembers_completes k s d (construct sT) (construct dT)
                       Hos Hod
                       (forIn (construct sT)) (map sp_name (properties mapping))))
      as [v2 Eb].
    { intros x _ Hx Hnx. auto. }
    rewrite Eb. cbn [bind].
    apply (walkSourceMembers_validated _ _ _ _ _ Hos Hod) in Eb as [Hv2 _].
    apply (walkDestinationMembers_passes _ _ _ _ Hod). intros x _ Hx. apply Hv2.
    destruct (Hc x Hx) as [H|H]; [now left|]. right.
    split; [now apply ownsKey_forIn | exact H].
Qed.

(** X3: with both classes present and instances where [hasOwnProperty]
    is the method of [Object.prototype], validation of a mapping returns
    normally exactly when every rule's check reports no error, every own
    source member that is no rule name is an own destination member, and
    every own destination member is a rule name or an own source
    member. *)
Theorem assertMappingConfiguration_valid_iff :
  forall (mapping : IMapping) (strictMode : bool) (sT dT : TypeClass),
    sourceTypeClass mapping = Some sT ->
    destinationTypeClass mapping = Some dT ->
    ordinaryInstance (construct sT) = true ->
    ordinaryInstance (construct dT) = true ->
    (assertMappingConfiguration getClassName mapping strictMode = Normal tt <->
     (forall p, In p (properties mapping) ->
        validatePropertyMapping p (sp_name p) (construct sT) (construct dT)
        = Normal None) /\
     (forall x, ownsKey (construct sT) x = true ->
        ~ In x (map sp_name (properties mapping)) ->
        ownsKey (construct dT) x = true) /\
     (forall x, ownsKey (construct dT) x = true ->
        In x (map sp_name (properties mapping))
        \/ ownsKey (construct sT) x = true)).
Proof.
  intros mapping strictMode sT dT Hs Hd Hos Hod.
  apply ordinaryInstance_slot in Hos. apply ordinaryInstance_slot in Hod.
  now apply assertMappingConfiguration_normal_iff.
Qed.

(** X4: on such instances, a mapping without rules is valid exactly when
    the two instances own the same member names, in whatever order. *)
Theorem assertMappingConfiguration_without_rules :
  forall (mapping : IMapping) (strictMode : bool) (sT dT : TypeClass),
    sourceTypeClass mapping = Some sT ->
    destinationTypeClass mapping = Some dT ->
    ordinaryInstance (construct sT) = true ->
    ordinaryInstance (construct dT) = true ->
    properties mapping = [] ->
    (assertMappingConfiguration getClassName mapping strictMode = Normal tt <->
     forall x, ownsKey (construct sT) x = ownsKey (construct dT) x).
Proof.
  intros mapping strictMode sT dT Hs Hd Hos Hod Hnone.
  apply ordinaryInstance_slot in Hos. apply ordinaryInstance_slot in Hod.
  rewrite (assertMappingConfiguration_normal_iff mapping strictMode Hs Hd Hos Hod), Hnone.
  cbn [map In]. split.
  - intros (_ & Hb & Hc) x.
    destruct (ownsKey (construct sT) x) eqn:Ex.
    + symmetry. apply Hb; auto.
    + destruct (ownsKey (construct dT) x) eqn:Ey; [|reflexivity].
      destruct (Hc x Ey) as [[]|H]. congruence.
  - intros Hsame. split; [intros p []|]. split.
    + intros x Hx _. now rewrite <- Hsame.
    + intros x Hx. right. now rewrite Hsame.
Qed.

(** X5: on such instances, when every rule passes and some own source
    member that is no rule name is missing on the destination instance,
    validation fails in pass (b) with "Source member '<m>' is configured
    to be mapped, but does not exist on destination type" for such a
    member, whatever the destination instance holds besides. *)
Theorem unmatched_source_member :
  forall (mapping : IMapping) (strictMode : bool) (sT dT : TypeClass),
    sourceTypeClass mapping = Some sT ->
    destinationTypeClass mapping = Some dT ->
    ordinaryInstance (construct sT) = true ->
    ordinaryInstance (construct dT) = true ->
    (forall p, In p (properties mapping) ->
       validatePropertyMapping p (sp_name p) (construct sT) (construct dT)
       = Normal None) ->
    (exists x, ownsKey (construct sT) x = true /\
               ~ In x (map sp_name (properties mapping)) /\
               ownsKey (construct dT) x = false) ->
    exists m,
      ownsKey (construct sT) m = true /\
      ~ In m (map sp_name (properties mapping)) /\
      ownsKey (construct dT) m = false /\
      assertMappingConfiguration getClassName mapping strictMode
      = Throw (Error (invalidMapping (mappingKeyOf mapping)
                 ("Source member '" ++ m
                  ++ "' is configured to be mapped, but does not exist on destination type")
                 (getClassName sT) (getClassName dT))).
Proof.
  intros mapping strictMode sT dT Hs Hd Hos Hod Hrules (x & Hx & Hnx & Hdx).
  apply ordinaryInstance_slot in Hos. apply ordinaryInstance_slot in Hod.
  rewrite (assertMappingConfiguration_with_types getClassName mapping strictMode Hs Hd).
  rewrite (walkProperties_all_pass _ _ _ _ _ _ [] Hrules). cbn [app bind].
  destruct (walkSourceMembers (mappingKeyOf mapping) (getClassName sT) (getClassName dT)
              (construct sT) (construct dT) (forIn (construct sT))
              (map sp_name (properties mapping))) as [v2|e] eqn:Eb.
  - exfalso.
    apply (walkSourceMembers_validated _ _ _ _ _ Hos Hod) in Eb as [_ Hb].
    rewrite (Hb x (ownsKey_forIn _ _ Hx) Hx Hnx) in Hdx. discriminate Hdx.
  - apply (walkSourceMembers_flags _ _ _ _ _ Hos Hod) in Eb
      as (m & _ & Hm & Hnm & Hdm & ->).
    exists m. auto.
Qed.

(** X6: the first rule, in the order of [properties], whose check does
    not pass decides the outcome: its message, wrapped with the mapping
    key and the class names, when it reports one, what it throws when it
    throws, and a TypeError when its destination rule does not resolve;
    the rules after it and the members of the instances are not looked
    at. *)
Theorem first_failing_rule :
  forall (mapping : IMapping) (strictMode : bool) (sT dT : TypeClass)
         (before after : list ISourceProperty) (p : ISourceProperty),
    sourceTypeClass mapping = Some sT ->
    destinationTypeClass mapping = Some dT ->
    properties mapping = before ++ p :: after ->
    (forall q, In q before ->
       validatePropertyMapping q (sp_name q) (construct sT) (construct dT)
       = Normal None) ->
    (forall msg,
        validatePropertyMapping p (sp_name p) (construct sT) (construct dT)
        = Normal (Some msg) ->
        assertMappingConfiguration getClassName mapping strictMode
        = Throw (Error (invalidMapping (mappingKeyOf mapping) msg
                   (getClassName sT) (getClassName dT)))) /\
    (forall e,
        validatePropertyMapping p (sp_name p) (construct sT) (construct dT)
        = Throw e ->
        assertMappingConfiguration getClassName mapping strictMode = Throw e) /\
    (getDestinationProperty (sp_destinationPropertyName p) p = None ->
     assertMappingConfiguration getClassName mapping strictMode = Throw TypeError).
Proof.
  intros mapping strictMode sT dT before after p Hs Hd Hsplit Hbefore.
  rewrite (assertMappingConfiguration_with_types getClassName mapping strictMode Hs Hd).
  rewrite Hsplit, (walkProperties_first _ _ _ _ _ _ _ _ [] Hbefore).
  split; [|split].
  - intros msg ->. reflexivity.
  - intros e ->. reflexivity.
  - intros Hnone. unfold validatePropertyMapping. rewrite Hnone. reflexivity.
Qed.


End MappingOutcomes.

(** ** What the instances and the rules contribute *)

Section InstanceFacts.

Variable getClassName : TypeClass -> string.

(** X8: with [hasOwnProperty] being the method of [Object.prototype] on
    all instances involved, only the own keys of the two instances and
    the display names of the classes enter the outcome: classes whose
    instances have the same own keys and that are displayed alike
    validate alike, whatever enumerable members their instances
    inherit. *)
Theorem inherited_members_are_ignored :
  forall (mapping : IMapping) (strictMode : bool) (sT dT sT' dT' : TypeClass),
    sourceTypeClass mapping = Some sT ->
    destinationTypeClass mapping = Some dT ->
    ordinaryInstance (construct sT) = true ->
    ordinaryInstance (construct dT) = true ->
    ordinaryInstance (construct sT') = true ->
    ordinaryInstance (construct dT') = true ->
    ownKeys (construct sT') = ownKeys (construct sT) ->
    ownKeys (construct dT') = ownKeys (construct dT) ->
    getClassName sT' = getClassName sT ->
    getClassName dT' = getClassName dT ->
    assertMappingConfiguration getClassName
      (mkMapping (sourceKey mapping) (destinationKey mapping)
         (Some sT') (Some dT') (properties mapping)) strictMode
    = assertMappingConfiguration getClassName mapping strictMode.
Proof.
  intros mapping strictMode sT dT sT' dT' Hs Hd Hps Hpd Hps' Hpd' Hos Hod Hns Hnd.
  apply ordinaryInstance_slot in Hps. apply ordinaryInstance_slot in Hpd.
  apply ordinaryInstance_slot in Hps'. apply ordinaryInstance_slot in Hpd'.
  rewrite (assertMappingConfiguration_with_types getClassName mapping strictMode Hs Hd).
  rewrite (assertMappingConfiguration_with_types getClassName
             (mkMapping (sourceKey mapping) (destinationKey mapping)
                (Some sT') (Some dT') (properties mapping))
             strictMode (sT := sT') (dT := dT') eq_refl eq_refl).
  cbn [properties]. change (mappingKeyOf (mkMapping _ _ _ _ _)) with (mappingKeyOf mapping).
  rewrite Hns, Hnd.
  rewrite (walkProperties_same_own _ _ _ (construct sT) (construct dT) Hps Hpd
             _ _ _ _ Hps' Hpd' Hos Hod).
  destruct (walkProperties _ _ _ (construct sT) (construct dT) _ _) as [v1|e];
    cbn [bind]; [|reflexivity].
  rewrite (walkSourceMembers_forIn _ _ _ _ _ Hps' Hpd'),
    (walkSourceMembers_forIn _ _ _ _ _ Hps Hpd), Hos.
  rewrite (walkSourceMembers_same_own _ _ _ (construct sT) (construct dT) Hps Hpd
             _ _ _ _ Hps' Hpd' Hos Hod).
  destruct (walkSourceMembers _ _ _ (construct sT) (construct dT) _ _) as [v2|e];
    cbn [bind]; [|reflexivity].
  rewrite (walkDestinationMembers_forIn _ _ _ _ Hpd'),
    (walkDestinationMembers_forIn _ _ _ _ Hpd), Hod.
  apply (walkDestinationMembers_same_own _ _ _ _ Hpd _ _ _ Hpd' Hod).
Qed.

(** X9: on instances where [hasOwnProperty] is the method of
    [Object.prototype], a rule whose name the source instance does not
    own makes validation of the mapping fail, unless the rule is an
    ignore from the destination side. *)
Theorem rule_on_missing_source_member :
  forall (mapping : IMapping) (strictMode : bool) (sT dT : TypeClass)
         (p : ISourceProperty) (dp : IDestinationProperty),
    sourceTypeClass mapping = Some sT ->
    destinationTypeClass mapping = Some dT ->
    ordinaryInstance (construct sT) = true ->
    ordinaryInstance (construct dT) = true ->
    In p (properties mapping) ->
    getDestinationProperty (sp_destinationPropertyName p) p = Some dp ->
    ownsKey (construct sT) (sp_name p) = false ->
    sourceMapping dp = true \/ ignore dp = false ->
    exists e, assertMappingConfiguration getClassName mapping strictMode = Throw e.
Proof.
  intros mapping strictMode sT dT p dp Hs Hd Hos Hod Hin Hres Hsrc Hkind.
  apply ordinaryInstance_slot in Hos. apply ordinaryInstance_slot in Hod.
  rewrite (assertMappingConfiguration_with_types getClassName mapping strictMode Hs Hd).
  destruct (walkProperties_rejects (mappingKeyOf mapping) (getClassName sT)
              (getClassName dT) (construct sT) (construct dT)
              (properties mapping) [] p Hin) as [e He].
  - unfold validatePropertyMapping. rewrite Hres.
    unfold validateSourcePropertyMapping, validateDestinationPropertyMapping.
    rewrite !(hasOwnProperty_ordinary _ _ Hos), !(hasOwnProperty_ordinary _ _ Hod).
    cbn [bind]. rewrite Hsrc. cbn [negb].
    destruct (sourceMapping dp); [discriminate|].
    destruct Hkind as [Hk|Hk]; [discriminate Hk|]. rewrite Hk.
    destruct (ownsKey (construct dT) (dp_name dp)); cbn [bind negb]; discriminate.
  - exists e. rewrite He. reflexivity.
Qed.

(** X10: the mirror of the ignored source member, on instances where
    [hasOwnProperty] is the method of [Object.prototype].  For a rule
    whose resolved destination has [ignore] set and [sourceMapping]
    unset, an own source member of the rule's name makes validation of
    the mapping fail; and when the destination instance owns the
    destination rule's name, the rule's check reports "is ignored, but
    does exist on source type" iff the source instance owns the rule's
    name, and nothing otherwise. *)
Theorem ignored_destination_member :
  forall (mapping : IMapping) (strictMode : bool) (sT dT : TypeClass)
         (p : ISourceProperty) (dp : IDestinationProperty),
    sourceTypeClass mapping = Some sT ->
    destinationTypeClass mapping = Some dT ->
    ordinaryInstance (construct sT) = true ->
    ordinaryInstance (construct dT) = true ->
    In p (properties mapping) ->
    getDestinationProperty (sp_destinationPropertyName p) p = Some dp ->
    ignore dp = true ->
    sourceMapping dp = false ->
    (ownsKey (construct sT) (sp_name p) = true ->
     exists e, assertMappingConfiguration getClassName mapping strictMode = Throw e) /\
    (ownsKey (construct dT) (dp_name dp) = true ->
     (validatePropertyMapping p (sp_name p) (construct sT) (construct dT)
      = Normal (Some ("Destination member '" ++ sp_name p
                      ++ "' is ignored, but does exist on source type")%string)
      <-> ownsKey (construct sT) (sp_name p) = true) /\
     (validatePropertyMapping p (sp_name p) (construct sT) (construct dT)
      = Normal None
      <-> ownsKey (construct sT) (sp_name p) = false)).
Proof.
  intros mapping strictMode sT dT p dp Hs Hd Hos Hod Hin Hres Hign Hsm.
  apply ordinaryInstance_slot in Hos. apply ordinaryInstance_slot in Hod.
  assert (Hcheck : validatePropertyMapping p (sp_name p) (construct sT) (construct dT)
                   = validateDestinationPropertyMapping p dp (sp_name p)
                       (construct sT) (construct dT)).
  { unfold validatePropertyMapping. rewrite Hres, Hsm. reflexivity. }
  split.
  - intros Hsrc.
    rewrite (assertMappingConfiguration_with_types getClassName mapping strictMode Hs Hd).
    destruct (walkProperties_rejects (mappingKeyOf mapping) (getClassName sT)
                (getClassName dT) (construct sT) (construct dT)
                (properties mapping) [] p Hin) as [e He].
    + rewrite Hcheck. unfold validateDestinationPropertyMapping.
      rewrite !(hasOwnProperty_ordinary _ _ Hos), !(hasOwnProperty_ordinary _ _ Hod).
      cbn [bind]. rewrite Hign, Hsrc.
      destruct (ownsKey (construct dT) (dp_name dp)); cbn [bind negb]; discriminate.
    + exists e. rewrite He. reflexivity.
  - intros Hdst. rewrite Hcheck.
    destruct (validateDestinationPropertyMapping_cases p dp (sp_name p)
                (construct sT) (construct dT) Hos Hod) as (r & -> & _ & Hcase & _).
    destruct (Hcase Hdst Hign) as [H1 H2]. split.
    + rewrite <- H1. split; [intros [= E]; exact E | intros ->; reflexivity].
    + rewrite <- H2. split; [intros [= E]; exact E | intros ->; reflexivity].
Qed.

End InstanceFacts.

(** ** Strict and lenient mode over a registry *)

Section ModeFacts.

Variable getClassName : TypeClass -> string.

Lemma firstFailure_normal_iff strictMode mappings :
  firstFailure getClassName strictMode mappings = Normal tt <->
  forall m, In m mappings ->
    assertMappingConfiguration getClassName m strictMode = Normal tt.
Proof.
  split; [|apply firstFailure_all_valid].
  induction mappings as [|m rest IH]; intros H m' Hin; [destruct Hin|].
  cbn [firstFailure] in H.
  destruct (assertMappingConfiguration getClassName m strictMode) as [[]|e] eqn:E;
    cbn [bind] in H; [|discriminate H].
  destruct Hin as [<-|Hin]; [exact E | auto].
Qed.

Lemma assertMappingConfiguration_typed mapping :
  hasTypeClasses mapping = true ->
  assertMappingConfiguration getClassName mapping true
  = assertMappingConfiguration getClassName mapping false.
Proof.
  unfold hasTypeClasses, assertMappingConfiguration.
  destruct (sourceTypeClass mapping), (destinationTypeClass mapping);
    [reflexivity | discriminate ..].
Qed.

Lemma assertMappingConfiguration_untyped mapping :
  hasTypeClasses mapping = false ->
  assertMappingConfiguration getClassName mapping false = Normal tt /\
  exists e, assertMappingConfiguration getClassName mapping true = Throw e.
Proof.
  unfold hasTypeClasses, assertMappingConfiguration.
  destruct (sourceTypeClass mapping), (destinationTypeClass mapping);
    [discriminate | intros _; split; [reflexivity | eexists; reflexivity] ..].
Qed.



(** X11: a registry is valid in strict mode exactly when it is valid in
    lenient mode and every own entry carries both classes. *)
Theorem strict_mode_valid_iff :
  forall mappings : Registry,
    NoDup (map fst (ownEntries mappings)) ->
    (assertConfigurationIsValid getClassName mappings true = Normal tt <->
     assertConfigurationIsValid getClassName mappings false = Normal tt /\
     forall entry, In entry (ownEntries mappings) ->
                   hasTypeClasses (snd entry) = true).
Proof.
  intros mappings Hnd.
  rewrite !(assertConfigurationIsValid_walk getClassName mappings _ Hnd).
  destruct (registryGet mappings "hasOwnProperty") as [shadow|].
  { split; [discriminate | intros [H _]; discriminate H]. }
  rewrite !firstFailure_normal_iff.
  split.
  - intros H.
    assert (Htyped : forall entry, In entry (ownEntries mappings) ->
                                   hasTypeClasses (snd entry) = true).
    { intros entry Hin.
      destruct (hasTypeClasses (snd entry)) eqn:E; [reflexivity|].
      destruct (assertMappingConfiguration_untyped _ E) as [_ [e He]].
      rewrite (H (snd entry)) in He; [discriminate He|].
      apply in_map_iff. exists entry. auto. }
    split; [|exact Htyped].
    intros m Hin. rewrite <- (H m Hin). symmetry.
    apply assertMappingConfiguration_typed.
    apply in_map_iff in Hin as (entry & <- & Hin). auto.
  - intros [H Htyped] m Hin. rewrite <- (H m Hin).
    apply assertMappingConfiguration_typed.
    apply in_map_iff in Hin as (entry & <- & Hin). auto.
Qed.


(** X13: on a registry whose own entries all carry both classes the
    mode makes no difference: both modes end in the same outcome, the
    same failure included. *)
Theorem typed_registry_ignores_mode :
  forall mappings : Registry,
    NoDup (map fst (ownEntries mappings)) ->
    (forall entry, In entry (ownEntries mappings) ->
                   hasTypeClasses (snd entry) = true) ->
    assertConfigurationIsValid getClassName mappings true
    = assertConfigurationIsValid getClassName mappings false.
Proof.
  intros mappings Hnd Htyped.
  rewrite !(assertConfigurationIsValid_walk getClassName mappings _ Hnd).
  destruct (registryGet mappings "hasOwnProperty") as [shadow|]; [reflexivity|].
  clear Hnd.
  induction (ownEntries mappings) as [|entry rest IH]; [reflexivity|].
  cbn [map firstFailure].
  rewrite (assertMappingConfiguration_typed _ (Htyped entry (or_introl eq_refl))).
  rewrite IH; [reflexivity|].
  intros entry' Hin. apply Htyped. now right.
Qed.

End ModeFacts.

(** ** The further properties on the sample configurations *)

Ltac distinct_keys :=
  cbn; repeat constructor; cbn; intros F;
  repeat (destruct F as [F|F]; [discriminate F|]); exact F.

Lemma getDestinationProperty_first_in_preorder_witness :
  getDestinationProperty "street" nestedRule = Some fullNameFromName /\
  exists r, In r (preorder nestedRule) /\ destination r = Some fullNameFromName.
Proof.
  split; [reflexivity|].
  destruct (getDestinationProperty_first_in_preorder "street" nestedRule)
    as (_ & _ & Hfound).
  apply Hfound. reflexivity.
Defined.

Lemma assertMappingConfiguration_valid_iff_witness :
  sourceTypeClass ignoredSecretMapping = Some (classOf "User" ["id"; "secret"]) /\
  destinationTypeClass ignoredSecretMapping = Some (classOf "UserDto" ["id"]) /\
  assertMappingConfiguration typeName ignoredSecretMapping true = Normal tt.
Proof.
  split; [reflexivity|]. split; [reflexivity|].
  apply (proj2 (assertMappingConfiguration_valid_iff typeName ignoredSecretMapping true
                  (sT := classOf "User" ["id"; "secret"])
                  (dT := classOf "UserDto" ["id"]) eq_refl eq_refl eq_refl eq_refl)).
  split; [|split].
  - intros p [<-|[]]. reflexivity.
  - intros x Hx Hnx. apply ownsKey_In in Hx.
    destruct Hx as [<-|[<-|[]]]; [reflexivity|].
    exfalso. apply Hnx. now left.
  - intros x Hx. apply ownsKey_In in Hx.
    destruct Hx as [<-|[]]. right. reflexivity.
Defined.

Lemma assertMappingConfiguration_without_rules_witness :
  properties droppedMemberMapping = [] /\
  assertMappingConfiguration typeName droppedMemberMapping false <> Normal tt.
Proof.
  split; [reflexivity|]. intros H.
  pose proof (proj1 (assertMappingConfiguration_without_rules typeName
                       droppedMemberMapping false
                       (sT := classOf "User" ["id"; "name"])
                       (dT := classOf "UserDto" ["id"])
                       eq_refl eq_refl eq_refl eq_refl eq_refl) H "name"%string) as Hsame.
  discriminate Hsame.
Defined.

Lemma unmatched_source_member_witness :
  ownsKey (plainObject ["id"; "name"]) "name" = true /\
  ownsKey (plainObject ["id"]) "name" = false /\
  exists m,
    ownsKey (plainObject ["id"; "name"]) m = true /\
    ownsKey (plainObject ["id"]) m = false /\
    assertMappingConfiguration typeName droppedMemberMapping true
    = Throw (Error (invalidMapping "User=>UserDto"
               ("Source member '" ++ m
                ++ "' is configured to be mapped, but does not exist on destination type")
               "User" "UserDto")).
Proof.
  split; [reflexivity|]. split; [reflexivity|].
  destruct (unmatched_source_member typeName droppedMemberMapping true
              (sT := classOf "User" ["id"; "name"]) (dT := classOf "UserDto" ["id"])
              eq_refl eq_refl eq_refl eq_refl) as (m & Hs & _ & Hd & He).
  - intros p [].
  - exists "name"%string. split; [reflexivity|]. split; [intros []|reflexivity].
  - exists m. auto.
Defined.

Lemma first_failing_rule_witness :
  properties orderedRulesMapping = [idRule] ++ secretRule :: [bareRule] /\
  validatePropertyMapping idRule (sp_name idRule)
    (plainObject ["id"; "secret"]) (plainObject ["id"; "secret"]) = Normal None /\
  validatePropertyMapping bareRule (sp_name bareRule)
    (plainObject ["id"; "secret"]) (plainObject ["id"; "secret"]) = Throw TypeError /\
  assertMappingConfiguration typeName orderedRulesMapping false
  = Throw (Error (invalidMapping "User=>UserDto"
             "Source member 'secret' is ignored, but does exist on destination type"
             "User" "UserDto")).
Proof.
  split; [reflexivity|]. split; [reflexivity|]. split; [reflexivity|].
  destruct (first_failing_rule typeName orderedRulesMapping false
              (sT := classOf "User" ["id"; "secret"])
              (dT := classOf "UserDto" ["id"; "secret"])
              [idRule] [bareRule] secretRule eq_refl eq_refl eq_refl) as (Hmsg & _).
  - intros q [<-|[]]. reflexivity.
  - apply Hmsg. reflexivity.
Defined.


Lemma inherited_members_are_ignored_witness :
  ownKeys (construct (classOf "User" ["id"; "name"])) = ownKeys (construct derivedUser) /\
  ownKeys (construct (classOf "UserDto" ["id"; "name"])) = ownKeys (construct derivedUserDto) /\
  assertMappingConfiguration typeName
    (mkMapping "User" "UserDto" (Some (classOf "User" ["id"; "name"]))
       (Some (classOf "UserDto" ["id"; "name"])) []) true
  = assertMappingConfiguration typeName derivedMapping true.
Proof.
  split; [reflexivity|]. split; [reflexivity|].
  exact (inherited_members_are_ignored typeName derivedMapping true
           (sT := derivedUser) (dT := derivedUserDto)
           (classOf "User" ["id"; "name"]) (classOf "UserDto" ["id"; "name"])
           eq_refl eq_refl eq_refl eq_refl eq_refl eq_refl
           eq_refl eq_refl eq_refl eq_refl).
Defined.

Lemma rule_on_missing_source_member_witness :
  In secretRule (properties missingSecretMapping) /\
  ownsKey (plainObject ["id"]) (sp_name secretRule) = false /\
  exists e, assertMappingConfiguration typeName missingSecretMapping true = Throw e.
Proof.
  assert (Hin : In secretRule (properties missingSecretMapping)) by (now left).
  split; [exact Hin|]. split; [reflexivity|].
  exact (rule_on_missing_source_member typeName missingSecretMapping true
           (sT := classOf "User" ["id"]) (dT := classOf "UserDto" ["id"])
           secretRule (dp := secretIgnored)
           eq_refl eq_refl eq_refl eq_refl Hin eq_refl eq_refl (or_introl eq_refl)).
Defined.

Lemma ignored_destination_member_witness :
  In (mkSourceProperty "secret" "secret" (Some secretIgnoredInward) None)
     (properties inwardSecretMapping) /\
  ownsKey (plainObject ["id"; "secret"]) "secret" = true /\
  exists e, assertMappingConfiguration typeName inwardSecretMapping true = Throw e.
Proof.
  assert (Hin : In (mkSourceProperty "secret" "secret" (Some secretIgnoredInward) None)
                   (properties inwardSecretMapping)) by (now left).
  split; [exact Hin|]. split; [reflexivity|].
  destruct (ignored_destination_member typeName inwardSecretMapping true
              (sT := classOf "User" ["id"; "secret"])
              (dT := classOf "UserDto" ["id"; "secret"])
              _ (dp := secretIgnoredInward)
              eq_refl eq_refl eq_refl eq_refl Hin eq_refl eq_refl eq_refl) as (Hfails & _).
  apply Hfails. reflexivity.
Defined.

Lemma strict_mode_valid_iff_witness :
  NoDup (map fst (ownEntries mixedRegistry)) /\
  assertConfigurationIsValid typeName mixedRegistry false = Normal tt /\
  assertConfigurationIsValid typeName mixedRegistry true <> Normal tt.
Proof.
  assert (Hnd : NoDup (map fst (ownEntries mixedRegistry))) by distinct_keys.
  split; [exact Hnd|]. split; [reflexivity|].
  intros H.
  destruct (proj1 (strict_mode_valid_iff typeName mixedRegistry Hnd) H) as [_ Htyped].
  specialize (Htyped ("Untyped"%string, untypedMapping) (or_introl eq_refl)).
  discriminate Htyped.
Defined.


Lemma typed_registry_ignores_mode_witness :
  NoDup (map fst (ownEntries sampleRegistry)) /\
  assertConfigurationIsValid typeName sampleRegistry true
  = assertConfigurationIsValid typeName sampleRegistry false.
Proof.
  assert (Hnd : NoDup (map fst (ownEntries sampleRegistry))) by distinct_keys.
  split; [exact Hnd|].
  apply (typed_registry_ignores_mode typeName sampleRegistry Hnd).
  intros entry [<-|[<-|[]]]; reflexivity.
Defined.
